(** * The storage gateway of the parish room-booking prototype

    A shallow embedding of [src/services/storage.ts] and the proofs of its
    specified properties.

    The browser's [localStorage] holds, under five fixed keys, the JSON text
    of typed values ([StoredUser[]], [Room[]], [Booking[]], a [User], an
    [AppConfig]).  The gateway only ever writes [JSON.stringify v] and reads
    it back with [JSON.parse], so the store is modelled at the level of those
    values: a key is either absent or holds a value of the type the source
    declares for it.  ([getItem(k) || d] and [!getItem(k)] take the empty
    string for an absent key as well; [JSON.stringify] of an array or an
    object is never empty, so no key ever holds it.)  Every operation is a read-modify-write cycle that runs
    to completion once it starts (the timers only delay when it starts or when
    its promise settles), so an operation is a function from the store it
    finds to the value its promise resolves to and the store it leaves. *)

From Stdlib Require Import String Ascii List ZArith Bool Lia.
From Stdlib Require Import Sorting.Sorted Sorting.Permutation.
From Stdlib Require Import DecimalString.
From Stdlib Require DecimalPos DecimalZ.
Import ListNotations.
Open Scope string_scope.

(* ================================================================= *)
(** ** Data model ([../types]) *)

(** [UserRole]: the source names [UserRole.ADMIN] and [UserRole.USER]. *)
Inductive UserRole : Type := ADMIN | USER.

(** Modelled from the spec: the [BookingStatus] enum is declared in
    [../types], which is not among the sources; the gateway itself names
    only [BookingStatus.PENDING].  The spec lists the four values. *)
Inductive BookingStatus : Type := PENDING | APPROVED | REJECTED | CANCELLED.

(** [Room], with the fields of the [SEED_ROOMS] literal. *)
Module Room.
Record t : Type := mk {
  id : string;
  name : string;
  capacity : Z;
  features : list string;
  imageUrl : string
}.
End Room.

(** [Omit<Room, 'id'>], the argument of [addRoom]. *)
Module RoomData.
Record t : Type := mk {
  name : string;
  capacity : Z;
  features : list string;
  imageUrl : string
}.
End RoomData.

(** [StoredUser extends User { password?: string }].  TypeScript's types are
    structural and erased: at run time a value of type [User] is an object
    that has [id], [username], [role] and [name], and that may or may not
    carry a [password] property.  One record stands for both, its [password]
    being [None] when the property is absent. *)
Module User.
Record t : Type := mk {
  id : string;
  username : string;
  password : option string;
  role : UserRole;
  name : string
}.
End User.

(** [AppConfig], with the fields of the [SEED_CONFIG] literal. *)
Module AppConfig.
Record t : Type := mk {
  appName : string;
  appLogo : string
}.
End AppConfig.

(** [Booking].  The gateway reads [id], [roomId], [status] and [createdAt];
    the remaining fields (requester, time range) are declared in [../types]
    and only carried along, so they are kept as one field of a type [D] the
    development is parametric in. *)
Module Booking.
Record t (D : Type) : Type := mk {
  id : string;
  roomId : string;
  details : D;
  status : BookingStatus;
  createdAt : Z
}.
Arguments mk {D}.
Arguments id {D}.
Arguments roomId {D}.
Arguments details {D}.
Arguments status {D}.
Arguments createdAt {D}.
End Booking.

(** [Omit<Booking, 'id' | 'status' | 'createdAt'>], the argument of
    [createBooking]. *)
Module BookingData.
Record t (D : Type) : Type := mk {
  roomId : string;
  details : D
}.
Arguments mk {D}.
Arguments roomId {D}.
Arguments details {D}.
End BookingData.

Abbreviation Room := Room.t.
Abbreviation StoredUser := User.t.
Abbreviation User := User.t.
Abbreviation AppConfig := AppConfig.t.
Abbreviation Booking := Booking.t.

(* ================================================================= *)
(** ** Built-ins the gateway calls *)

(** [Date.now().toString()] and the [${Date.now()}] of a template literal:
    the decimal numeral of the clock reading. *)
Definition toString (n : Z) : string := NilZero.string_of_int (Z.to_int n).

(** [const { password, ...safeUser } = user]: the object without its
    [password] property. *)
Definition omit_password (u : StoredUser) : User :=
  User.mk (User.id u) (User.username u) None (User.role u) (User.name u).

(** [{ ...u, password: newPassword }]. *)
Definition with_password (u : StoredUser) (newPassword : string) : StoredUser :=
  User.mk (User.id u) (User.username u) (Some newPassword) (User.role u) (User.name u).

(** [user.password === passwordInput], the left side possibly [undefined]. *)
Definition password_is (u : StoredUser) (passwordInput : string) : bool :=
  match User.password u with
  | Some p => String.eqb p passwordInput
  | None => false
  end.

(** [{ ...b, status }]. *)
Definition with_status {D} (b : Booking D) (status : BookingStatus) : Booking D :=
  Booking.mk (Booking.id b) (Booking.roomId b) (Booking.details b) status
             (Booking.createdAt b).

(** [Array.prototype.sort(compare)]: since ES2019 a stable sort; with a
    consistent comparator its result is the one stable rearrangement that
    puts [a] before [b] whenever [compare(a, b) < 0].  It is modelled by
    the stable insertion sort. *)
Fixpoint sort_insert {A} (compare : A -> A -> Z) (x : A) (l : list A) : list A :=
  match l with
  | [] => [x]
  | y :: l' =>
      if (compare x y <=? 0)%Z then x :: y :: l'
      else y :: sort_insert compare x l'
  end.

Fixpoint sort {A} (compare : A -> A -> Z) (l : list A) : list A :=
  match l with
  | [] => []
  | x :: l' => sort_insert compare x (sort compare l')
  end.

(* ================================================================= *)
(** ** Seed data *)

Definition SEED_ROOMS : list Room :=
  [ Room.mk "room-1" "Salón Parroquial Principal" 50
      ["Proyector"; "Aire Acondicionado"; "Pizarrón"; "Sillas"]
      "https://picsum.photos/400/300?random=1" ].

Definition SEED_USERS : list StoredUser :=
  [ User.mk "u1" "admin" (Some "password") ADMIN "Administrador Principal";
    User.mk "u2" "user" (Some "password") USER "Juan Pérez" ].

Definition SEED_CONFIG : AppConfig :=
  AppConfig.mk "Parish Booker" "fa-church".

(* ================================================================= *)
(** ** The store and the gateway *)

(** [localStorage], restricted to the gateway's five keys.  A field is
    [None] when [getItem] of its key answers [null]. *)
Record Store (D : Type) : Type := mkStore {
  app_users : option (list StoredUser);
  app_rooms : option (list Room);
  app_bookings : option (list (Booking D));
  app_current_user : option User;
  app_config : option AppConfig
}.
Arguments mkStore {D}.
Arguments app_users {D}.
Arguments app_rooms {D}.
Arguments app_bookings {D}.
Arguments app_current_user {D}.
Arguments app_config {D}.

Section Model.

(** The booking fields the gateway does not look at. *)
Context {BookingDetails : Type}.

(** [String.prototype.toLowerCase], a built-in: any function will do. *)
Variable toLowerCase : string -> string.

Local Abbreviation Booking := (Booking BookingDetails).
Local Abbreviation Store := (Store BookingDetails).

(** [STORAGE_KEYS], each key with the type of the value kept under it. *)
Inductive STORAGE_KEYS : Type -> Type :=
| USERS : STORAGE_KEYS (list StoredUser)
| ROOMS : STORAGE_KEYS (list Room)
| BOOKINGS : STORAGE_KEYS (list Booking)
| CURRENT_USER : STORAGE_KEYS User
| CONFIG : STORAGE_KEYS AppConfig.

Definition get {A} (k : STORAGE_KEYS A) (s : Store) : option A :=
  match k in STORAGE_KEYS T return option T with
  | USERS => app_users s
  | ROOMS => app_rooms s
  | BOOKINGS => app_bookings s
  | CURRENT_USER => app_current_user s
  | CONFIG => app_config s
  end.

Definition put {A} (k : STORAGE_KEYS A) (v : option A) (s : Store) : Store :=
  match k in STORAGE_KEYS T return option T -> Store with
  | USERS => fun v =>
      mkStore v (app_rooms s) (app_bookings s) (app_current_user s) (app_config s)
  | ROOMS => fun v =>
      mkStore (app_users s) v (app_bookings s) (app_current_user s) (app_config s)
  | BOOKINGS => fun v =>
      mkStore (app_users s) (app_rooms s) v (app_current_user s) (app_config s)
  | CURRENT_USER => fun v =>
      mkStore (app_users s) (app_rooms s) (app_bookings s) v (app_config s)
  | CONFIG => fun v =>
      mkStore (app_users s) (app_rooms s) (app_bookings s) (app_current_user s) v
  end v.

(** An operation of the gateway: from the store it finds, the value it
    returns and the store it leaves. *)
Definition Op (A : Type) : Type := Store -> A * Store.

(** [new Promise((resolve) => ...)]: the operation its executor, or the
    timer callback set there, runs, with the value passed to [resolve]. *)
Local Abbreviation Promise := Op.

Definition resolve {A} (a : A) : Op A := fun s => (a, s).

Definition bind {A B} (m : Op A) (k : A -> Op B) : Op B :=
  fun s => let (a, s') := m s in k a s'.

Local Notation "x <- m ;; k" := (bind m (fun x => k))
  (at level 61, m at next level, right associativity).
Local Notation "m ;; k" := (bind m (fun _ => k))
  (at level 61, right associativity).

(** [localStorage.getItem(key)], parsed when present. *)
Definition getItem {A} (key : STORAGE_KEYS A) : Op (option A) :=
  fun s => (get key s, s).

(** [localStorage.setItem(key, JSON.stringify(value))]. *)
Definition setItem {A} (key : STORAGE_KEYS A) (value : A) : Op unit :=
  fun s => (tt, put key (Some value) s).

(** [localStorage.removeItem(key)]. *)
Definition removeItem {A} (key : STORAGE_KEYS A) : Op unit :=
  fun s => (tt, put key None s).

(** [JSON.parse(localStorage.getItem(key) || JSON.stringify(dflt))]. *)
Definition getItem_or {A} (key : STORAGE_KEYS A) (dflt : A) : Op A :=
  stored <- getItem key ;;
  resolve (match stored with Some v => v | None => dflt end).

(** [if (!localStorage.getItem(key)) localStorage.setItem(key, seed)]. *)
Definition seed_if_absent {A} (key : STORAGE_KEYS A) (seed : A) : Op unit :=
  stored <- getItem key ;;
  match stored with
  | None => setItem key seed
  | Some _ => resolve tt
  end.

Definition initializeStorage : Op unit :=
  seed_if_absent ROOMS SEED_ROOMS ;;
  seed_if_absent BOOKINGS [] ;;
  seed_if_absent USERS SEED_USERS ;;
  seed_if_absent CONFIG SEED_CONFIG.

(** *** Config *)

Definition getAppConfig : Promise AppConfig :=
  getItem_or CONFIG SEED_CONFIG.

Definition updateAppConfig (config : AppConfig) : Promise bool :=
  setItem CONFIG config ;;
  resolve true.

(** *** Auth *)

(** [u => u.username.toLowerCase() === username.toLowerCase()]. *)
Definition same_username (username : string) (u : StoredUser) : bool :=
  String.eqb (toLowerCase (User.username u)) (toLowerCase username).

Definition login (username passwordInput : string) : Promise (option User) :=
  users <- getItem_or USERS [] ;;
  match find (same_username username) users with
  | Some user =>
      if password_is user passwordInput then
        let safeUser := omit_password user in
        setItem CURRENT_USER safeUser ;;
        resolve (Some safeUser)
      else resolve None
  | None => resolve None
  end.

(** [now] is the reading of [Date.now()]. *)
Definition register (now : Z) (name username password : string)
  : Promise (User + string) :=
  users <- getItem_or USERS [] ;;
  match find (same_username username) users with
  | Some _ => resolve (inr "El nombre de usuario ya existe.")
  | None =>
      let newUser := User.mk ("u-" ++ toString now) username (Some password) USER name in
      setItem USERS (users ++ [newUser])%list ;;
      let safeUser := omit_password newUser in
      setItem CURRENT_USER safeUser ;;
      resolve (inl safeUser)
  end.

Definition logout : Op unit :=
  removeItem CURRENT_USER.

Definition getCurrentUser : Op (option User) :=
  getItem CURRENT_USER.

Definition updatePassword (userId newPassword : string) : Promise bool :=
  users <- getItem_or USERS [] ;;
  let updatedUsers :=
    map (fun u => if String.eqb (User.id u) userId
                  then with_password u newPassword else u) users in
  setItem USERS updatedUsers ;;
  resolve true.

(** *** Rooms *)

Definition getRooms : Promise (list Room) :=
  getItem_or ROOMS [].

Definition addRoom (now : Z) (roomData : RoomData.t) : Promise bool :=
  rooms <- getItem_or ROOMS [] ;;
  let newRoom :=
    Room.mk ("room-" ++ toString now) (RoomData.name roomData)
            (RoomData.capacity roomData) (RoomData.features roomData)
            (RoomData.imageUrl roomData) in
  setItem ROOMS (rooms ++ [newRoom])%list ;;
  resolve true.

Definition updateRoom (updatedRoom : Room) : Promise bool :=
  rooms <- getItem_or ROOMS [] ;;
  let newRooms :=
    map (fun r => if String.eqb (Room.id r) (Room.id updatedRoom)
                  then updatedRoom else r) rooms in
  setItem ROOMS newRooms ;;
  resolve true.

Definition deleteRoom (roomId : string) : Promise bool :=
  rooms <- getItem_or ROOMS [] ;;
  let newRooms := filter (fun r => negb (String.eqb (Room.id r) roomId)) rooms in
  setItem ROOMS newRooms ;;
  bookings <- getItem_or BOOKINGS [] ;;
  let newBookings :=
    filter (fun b => negb (String.eqb (Booking.roomId b) roomId)) bookings in
  setItem BOOKINGS newBookings ;;
  resolve true.

(** *** Bookings *)

(** [now_id] and [now_created] are the two successive readings of
    [Date.now()]. *)
Definition createBooking (now_id now_created : Z) (booking : BookingData.t BookingDetails)
  : Promise bool :=
  bookings <- getItem_or BOOKINGS [] ;;
  let newBooking :=
    Booking.mk (toString now_id) (BookingData.roomId booking)
               (BookingData.details booking) PENDING now_created in
  setItem BOOKINGS (bookings ++ [newBooking])%list ;;
  resolve true.

(** [(a, b) => b.createdAt - a.createdAt]. *)
Definition newest_first (a b : Booking) : Z :=
  (Booking.createdAt b - Booking.createdAt a)%Z.

Definition getBookings : Promise (list Booking) :=
  bookings <- getItem_or BOOKINGS [] ;;
  resolve (sort newest_first bookings).

Definition updateBookingStatus (bookingId : string) (status : BookingStatus)
  : Promise bool :=
  bookings <- getItem_or BOOKINGS [] ;;
  let updatedBookings :=
    map (fun b => if String.eqb (Booking.id b) bookingId
                  then with_status b status else b) bookings in
  setItem BOOKINGS updatedBookings ;;
  resolve true.

Definition updateBooking (updatedBooking : Booking) : Promise bool :=
  bookings <- getItem_or BOOKINGS [] ;;
  let newBookings :=
    map (fun b => if String.eqb (Booking.id b) (Booking.id updatedBooking)
                  then updatedBooking else b) bookings in
  setItem BOOKINGS newBookings ;;
  resolve true.

(** *** Calls

    A call of the gateway, with its arguments and the clock readings it
    takes; [perform] is what the call does to the store. *)

Inductive Call : Type :=
| CallInitializeStorage
| CallGetAppConfig
| CallUpdateAppConfig (config : AppConfig)
| CallLogin (username passwordInput : string)
| CallRegister (now : Z) (name username password : string)
| CallLogout
| CallGetCurrentUser
| CallUpdatePassword (userId newPassword : string)
| CallGetRooms
| CallAddRoom (now : Z) (roomData : RoomData.t)
| CallUpdateRoom (updatedRoom : Room)
| CallDeleteRoom (roomId : string)
| CallCreateBooking (now_id now_created : Z) (booking : BookingData.t BookingDetails)
| CallGetBookings
| CallUpdateBookingStatus (bookingId : string) (status : BookingStatus)
| CallUpdateBooking (updatedBooking : Booking).

Definition perform (c : Call) (s : Store) : Store :=
  match c with
  | CallInitializeStorage => snd (initializeStorage s)
  | CallGetAppConfig => snd (getAppConfig s)
  | CallUpdateAppConfig config => snd (updateAppConfig config s)
  | CallLogin username passwordInput => snd (login username passwordInput s)
  | CallRegister now name username password =>
      snd (register now name username password s)
  | CallLogout => snd (logout s)
  | CallGetCurrentUser => snd (getCurrentUser s)
  | CallUpdatePassword userId newPassword => snd (updatePassword userId newPassword s)
  | CallGetRooms => snd (getRooms s)
  | CallAddRoom now roomData => snd (addRoom now roomData s)
  | CallUpdateRoom updatedRoom => snd (updateRoom updatedRoom s)
  | CallDeleteRoom roomId => snd (deleteRoom roomId s)
  | CallCreateBooking now_id now_created booking =>
      snd (createBooking now_id now_created booking s)
  | CallGetBookings => snd (getBookings s)
  | CallUpdateBookingStatus bookingId status =>
      snd (updateBookingStatus bookingId status s)
  | CallUpdateBooking updatedBooking => snd (updateBooking updatedBooking s)
  end.

(** The store after a sequence of calls, the first of the list first. *)
Definition perform_all (calls : list Call) (s : Store) : Store :=
  fold_left (fun s c => perform c s) calls s.

(** *** The collections as every operation reads them

    An absent key reads as the empty collection. *)

Definition users_in (s : Store) : list StoredUser :=
  match app_users s with Some v => v | None => [] end.

Definition rooms_in (s : Store) : list Room :=
  match app_rooms s with Some v => v | None => [] end.

Definition bookings_in (s : Store) : list Booking :=
  match app_bookings s with Some v => v | None => [] end.

(** *** The data model's invariants *)

(** Usernames are unique, ignoring case. *)
Definition unique_usernames (s : Store) : Prop :=
  NoDup (map (fun u => toLowerCase (User.username u)) (users_in s)).

(** The session slot holds no password. *)
Definition session_safe (s : Store) : Prop :=
  forall v, app_current_user s = Some v -> User.password v = None.

(** The four collection keys are present, as [initializeStorage] leaves
    them when the module is loaded. *)
Definition initialized (s : Store) : Prop :=
  app_users s <> None /\ app_rooms s <> None /\
  app_bookings s <> None /\ app_config s <> None.

End Model.

Arguments STORAGE_KEYS : clear implicits.
Arguments Call : clear implicits.

(* ================================================================= *)
(** ** Values to run the model on *)

(** The ASCII part of [toLowerCase]. *)
Definition lower_ascii (c : ascii) : ascii :=
  let n := nat_of_ascii c in
  if andb (Nat.leb 65 n) (Nat.leb n 90) then ascii_of_nat (n + 32) else c.

Fixpoint toLowerCase_ascii (s : string) : string :=
  match s with
  | EmptyString => EmptyString
  | String c s' => String (lower_ascii c) (toLowerCase_ascii s')
  end.

(** A [localStorage] with none of the gateway's keys. *)
Definition empty_storage : Store string :=
  mkStore None None None None None.

(** The store right after the module is first loaded. *)
Definition seeded_storage : Store string :=
  snd (initializeStorage empty_storage).

(** Three bookings, not in the order of their creation; the second is of
    a room that does not exist ([createBooking] does not check). *)
Definition sample_bookings : list (Booking string) :=
  [ Booking.mk "1001" "room-1" "Ana, lunes 10-11" PENDING 1001;
    Booking.mk "1003" "room-9" "Luis, martes 9-10" APPROVED 1003;
    Booking.mk "1002" "room-1" "Eva, jueves 16-18" PENDING 1002 ].

Definition booked_storage : Store string :=
  put BOOKINGS (Some sample_bookings) seeded_storage.

(** A store not left by the gateway: two users whose usernames differ
    only in case, with different passwords. *)
Definition duplicate_storage : Store string :=
  put USERS
      (Some [ User.mk "u7" "ana" (Some "clave1") USER "Ana";
              User.mk "u8" "Ana" (Some "clave2") USER "Ana Dos" ])
      seeded_storage.

(** A store not left by the gateway: the session slot holds a user with
    its password. *)
Definition unstripped_session_storage : Store string :=
  put CURRENT_USER
      (Some (User.mk "u1" "admin" (Some "password") ADMIN "Administrador Principal"))
      seeded_storage.

(** Every booking is of a stored room: the integrity the cascade of
    [deleteRoom] is there for. *)
Definition referential_integrity {D} (s : Store D) : Prop :=
  forall b, In b (bookings_in s) ->
    exists r, In r (rooms_in s) /\ Room.id r = Booking.roomId b.

(** The room [addRoom] makes of its argument at the clock reading [now]. *)
Definition room_added (now : Z) (roomData : RoomData.t) : Room :=
  Room.mk ("room-" ++ toString now) (RoomData.name roomData)
          (RoomData.capacity roomData) (RoomData.features roomData)
          (RoomData.imageUrl roomData).

(** The booking [createBooking] makes of its argument at the two clock
    readings. *)
Definition booking_created {D} (now_id now_created : Z) (booking : BookingData.t D)
  : Booking D :=
  Booking.mk (toString now_id) (BookingData.roomId booking)
             (BookingData.details booking) PENDING now_created.

(** A store with two bookings of the seed room and none of another. *)
Definition tidy_storage : Store string :=
  put BOOKINGS
      (Some [ Booking.mk "1001" "room-1" "Ana, lunes 10-11" PENDING 1001;
              Booking.mk "1002" "room-1" "Eva, jueves 16-18" PENDING 1002 ])
      seeded_storage.

(* ================================================================= *)
(** ** The sort *)

Section SortFacts.

Context {A : Type} (compare : A -> A -> Z).

(** [x] may stand before [y]. *)
Let before (x y : A) : Prop := (compare x y <= 0)%Z.

(** The comparator is consistent: of two elements one may stand before
    the other, and standing before is transitive. *)
Hypothesis compare_total :
  forall x y, (0 < compare x y)%Z -> (compare y x <= 0)%Z.
Hypothesis compare_trans :
  forall x y z, (compare x y <= 0)%Z -> (compare y z <= 0)%Z -> (compare x z <= 0)%Z.

Lemma sort_insert_Permutation (x : A) (l : list A) :
  Permutation (sort_insert compare x l) (x :: l).
Proof.
  induction l as [|y l IH]; simpl.
  - apply Permutation_refl.
  - destruct (compare x y <=? 0)%Z.
    + apply Permutation_refl.
    + apply perm_trans with (y :: x :: l).
      * now apply perm_skip.
      * apply perm_swap.
Qed.

Lemma sort_Permutation (l : list A) : Permutation (sort compare l) l.
Proof.
  induction l as [|x l IH]; simpl.
  - apply perm_nil.
  - apply perm_trans with (x :: sort compare l).
    + apply sort_insert_Permutation.
    + now apply perm_skip.
Qed.

Lemma sort_insert_Forall (P : A -> Prop) (x : A) (l : list A) :
  P x -> Forall P l -> Forall P (sort_insert compare x l).
Proof.
  intros Hx Hl.
  apply Permutation_Forall with (x :: l).
  - apply Permutation_sym, sort_insert_Permutation.
  - now constructor.
Qed.

Lemma sort_insert_StronglySorted (x : A) (l : list A) :
  StronglySorted before l -> StronglySorted before (sort_insert compare x l).
Proof.
  induction 1 as [|y l Hl IH Hy]; simpl.
  - repeat constructor.
  - destruct (compare x y <=? 0)%Z eqn:E.
    + apply Z.leb_le in E.
      constructor.
      * now constructor.
      * constructor; [exact E|].
        eapply Forall_impl; [|exact Hy].
        intros z Hz. unfold before in *. eauto.
    + apply Z.leb_gt in E.
      constructor; [exact IH|].
      apply sort_insert_Forall; [|exact Hy].
      unfold before. auto.
Qed.

Lemma sort_StronglySorted (l : list A) : StronglySorted before (sort compare l).
Proof.
  induction l as [|x l IH]; simpl.
  - constructor.
  - now apply sort_insert_StronglySorted.
Qed.

End SortFacts.

(** In a strongly sorted list the element at the smaller index is related
    to the one at the larger index. *)
Lemma StronglySorted_nth_error {A} (R : A -> A -> Prop) (l : list A) :
  StronglySorted R l ->
  forall i j x y, (i < j)%nat ->
    nth_error l i = Some x -> nth_error l j = Some y -> R x y.
Proof.
  induction 1 as [|a l Hl IH Ha]; intros i j x y Hij Hi Hj.
  - destruct i; discriminate.
  - destruct j as [|j]; [lia|].
    simpl in Hj.
    destruct i as [|i]; simpl in Hi.
    + injection Hi as <-.
      rewrite Forall_forall in Ha. apply Ha.
      eapply nth_error_In; eassumption.
    + apply (IH i j); [lia|assumption|assumption].
Qed.

(* ================================================================= *)
(** ** Lists *)

Lemma filter_keeps_all {A} (f : A -> bool) (l : list A) :
  (forall x, In x l -> f x = true) -> filter f l = l.
Proof.
  induction l as [|a l IH]; simpl; intros H.
  - reflexivity.
  - rewrite (H a (or_introl eq_refl)).
    f_equal. apply IH. intros x Hx. apply H. now right.
Qed.

Lemma map_replace_none {A} (test : A -> bool) (g : A -> A) (l : list A) :
  (forall x, In x l -> test x = false) ->
  map (fun x => if test x then g x else x) l = l.
Proof.
  induction l as [|a l IH]; simpl; intros H.
  - reflexivity.
  - rewrite (H a (or_introl eq_refl)).
    f_equal. apply IH. intros x Hx. apply H. now right.
Qed.

Lemma eqb_false_of_neq (a b : string) : a <> b -> String.eqb a b = false.
Proof. intros H. now apply String.eqb_neq. Qed.

(* ================================================================= *)
(** ** Properties of the gateway *)

Ltac gateway :=
  unfold initializeStorage, seed_if_absent, getAppConfig, updateAppConfig,
    login, register, logout, getCurrentUser, updatePassword,
    getRooms, addRoom, updateRoom, deleteRoom,
    createBooking, getBookings, updateBookingStatus, updateBooking,
    getItem_or, getItem, setItem, removeItem, bind, resolve;
  simpl.

Section Properties.

Context {BookingDetails : Type}.
Variable toLowerCase : string -> string.

Local Abbreviation Booking := (Booking BookingDetails).
Local Abbreviation Store := (Store BookingDetails).

(** *** Rooms *)

Lemma deleteRoom_rooms_In (roomId : string) (s : Store) (r : Room) :
  In r (rooms_in (snd (deleteRoom roomId s))) <->
  In r (rooms_in s) /\ Room.id r <> roomId.
Proof.
  gateway. unfold rooms_in; simpl.
  rewrite filter_In, negb_true_iff, String.eqb_neq. reflexivity.
Qed.

Lemma deleteRoom_bookings_In (roomId : string) (s : Store) (b : Booking) :
  In b (bookings_in (snd (deleteRoom roomId s))) <->
  In b (bookings_in s) /\ Booking.roomId b <> roomId.
Proof.
  gateway. unfold bookings_in; simpl.
  rewrite filter_In, negb_true_iff, String.eqb_neq. reflexivity.
Qed.

(** C1. For every room id and every starting store, [deleteRoom] resolves
    to [true]; afterwards the rooms hold no room with that id and the
    bookings no booking of that room, every room with another id and every
    booking of another room is still there, and nothing else is added; the
    users, the session and the config are untouched. *)
Theorem deleteRoom_cascades (roomId : string) (s : Store) :
  let s' := snd (deleteRoom roomId s) in
  fst (deleteRoom roomId s) = true /\
  (forall r, In r (rooms_in s') -> Room.id r <> roomId) /\
  (forall b, In b (bookings_in s') -> Booking.roomId b <> roomId) /\
  (forall r, In r (rooms_in s') <-> In r (rooms_in s) /\ Room.id r <> roomId) /\
  (forall b, In b (bookings_in s') <->
             In b (bookings_in s) /\ Booking.roomId b <> roomId) /\
  app_users s' = app_users s /\
  app_current_user s' = app_current_user s /\
  app_config s' = app_config s.
Proof.
  cbv zeta.
  split; [reflexivity|].
  split; [intros r H; now apply deleteRoom_rooms_In in H|].
  split; [intros b H; now apply deleteRoom_bookings_In in H|].
  split; [intros r; apply deleteRoom_rooms_In|].
  split; [intros b; apply deleteRoom_bookings_In|].
  repeat split.
Qed.

(** C9. When no room has the given id, [deleteRoom] still resolves to
    [true] and leaves the rooms as they were, and all the same removes
    every booking whose [roomId] is that id: the cascade does not depend
    on a room having been deleted. *)
Theorem deleteRoom_unknown_room_still_cascades (roomId : string) (s : Store)
  (Hno : forall r, In r (rooms_in s) -> Room.id r <> roomId) :
  let s' := snd (deleteRoom roomId s) in
  fst (deleteRoom roomId s) = true /\
  rooms_in s' = rooms_in s /\
  (app_rooms s <> None -> app_rooms s' = app_rooms s) /\
  (forall b, In b (bookings_in s) -> Booking.roomId b = roomId ->
             ~ In b (bookings_in s')) /\
  (forall b, In b (bookings_in s') <->
             In b (bookings_in s) /\ Booking.roomId b <> roomId).
Proof.
  assert (E : filter (fun r => negb (String.eqb (Room.id r) roomId)) (rooms_in s)
              = rooms_in s).
  { apply filter_keeps_all. intros r Hr.
    apply negb_true_iff, String.eqb_neq. now apply Hno. }
  cbv zeta. split; [reflexivity|]. split; [|split; [|split]].
  - gateway. unfold rooms_in in *; simpl. exact E.
  - gateway. unfold rooms_in in E.
    destruct (app_rooms s) as [l|]; [|congruence].
    intros _. now rewrite E.
  - intros b _ Hb Hin. now apply deleteRoom_bookings_In in Hin.
  - intros b. apply deleteRoom_bookings_In.
Qed.

(** Writing back what a present key already holds changes nothing. *)
Lemma put_same {A} (k : STORAGE_KEYS BookingDetails A) (v : A) (s : Store) :
  get k s = Some v -> put k (Some v) s = s.
Proof.
  destruct s; destruct k; simpl; intros ->; reflexivity.
Qed.

(** C6. For every store: [updateRoom], [updateBooking] and
    [updateBookingStatus], given an id that no element of the collection
    has, resolve to [true], and the collection they leave has the elements
    it had, in their order.  With the key present every key holds
    afterwards the value it held.  With the key absent they still write:
    the key then holds the empty collection, and nothing else changes.
    (The store holds the values the JSON text parses to, so what is kept
    is the stored value, not the spelling of its text.) *)
Theorem update_of_missing_id_is_noop (s : Store) :
  (forall updatedRoom : Room,
     (forall r, In r (rooms_in s) -> Room.id r <> Room.id updatedRoom) ->
     fst (updateRoom updatedRoom s) = true /\
     rooms_in (snd (updateRoom updatedRoom s)) = rooms_in s /\
     (app_rooms s <> None -> snd (updateRoom updatedRoom s) = s) /\
     (app_rooms s = None ->
      snd (updateRoom updatedRoom s) = put ROOMS (Some []) s)) /\
  (forall updatedBooking : Booking,
     (forall b, In b (bookings_in s) -> Booking.id b <> Booking.id updatedBooking) ->
     fst (updateBooking updatedBooking s) = true /\
     bookings_in (snd (updateBooking updatedBooking s)) = bookings_in s /\
     (app_bookings s <> None -> snd (updateBooking updatedBooking s) = s) /\
     (app_bookings s = None ->
      snd (updateBooking updatedBooking s) = put BOOKINGS (Some []) s)) /\
  (forall (bookingId : string) (status : BookingStatus),
     (forall b, In b (bookings_in s) -> Booking.id b <> bookingId) ->
     fst (updateBookingStatus bookingId status s) = true /\
     bookings_in (snd (updateBookingStatus bookingId status s)) = bookings_in s /\
     (app_bookings s <> None -> snd (updateBookingStatus bookingId status s) = s) /\
     (app_bookings s = None ->
      snd (updateBookingStatus bookingId status s) = put BOOKINGS (Some []) s)).
Proof.
  split; [|split].
  - intros updatedRoom Hno.
    assert (E : map (fun r => if String.eqb (Room.id r) (Room.id updatedRoom)
                              then updatedRoom else r) (rooms_in s) = rooms_in s).
    { apply (map_replace_none (fun r => String.eqb (Room.id r) (Room.id updatedRoom))
                              (fun _ => updatedRoom)).
      intros r Hr. now apply eqb_false_of_neq, Hno. }
    gateway. unfold rooms_in in *.
    split; [reflexivity|]. split; [exact E|]. split.
    + intros Hp. destruct (app_rooms s) as [l|] eqn:El; [|congruence].
      rewrite E. now apply (put_same ROOMS).
    + intros ->. reflexivity.
  - intros updatedBooking Hno.
    assert (E : map (fun b : Booking =>
                       if String.eqb (Booking.id b) (Booking.id updatedBooking)
                       then updatedBooking else b) (bookings_in s) = bookings_in s).
    { apply (map_replace_none
               (fun b : Booking => String.eqb (Booking.id b) (Booking.id updatedBooking))
               (fun _ => updatedBooking)).
      intros b Hb. now apply eqb_false_of_neq, Hno. }
    gateway. unfold bookings_in in *.
    split; [reflexivity|]. split; [exact E|]. split.
    + intros Hp. destruct (app_bookings s) as [l|] eqn:El; [|congruence].
      rewrite E. now apply (put_same BOOKINGS).
    + intros ->. reflexivity.
  - intros bookingId status Hno.
    assert (E : map (fun b : Booking =>
                       if String.eqb (Booking.id b) bookingId
                       then with_status b status else b) (bookings_in s) = bookings_in s).
    { apply (map_replace_none
               (fun b : Booking => String.eqb (Booking.id b) bookingId)
               (fun b => with_status b status)).
      intros b Hb. now apply eqb_false_of_neq, Hno. }
    gateway. unfold bookings_in in *.
    split; [reflexivity|]. split; [exact E|]. split.
    + intros Hp. destruct (app_bookings s) as [l|] eqn:El; [|congruence].
      rewrite E. now apply (put_same BOOKINGS).
    + intros ->. reflexivity.
Qed.

(** *** Bookings *)

Lemma newest_first_total (x y : Booking) :
  (0 < newest_first x y)%Z -> (newest_first y x <= 0)%Z.
Proof. unfold newest_first. lia. Qed.

Lemma newest_first_trans (x y z : Booking) :
  (newest_first x y <= 0)%Z -> (newest_first y z <= 0)%Z ->
  (newest_first x z <= 0)%Z.
Proof. unfold newest_first. lia. Qed.

Lemma StronglySorted_weaken {A} (R R' : A -> A -> Prop) (l : list A) :
  (forall x y, R x y -> R' x y) -> StronglySorted R l -> StronglySorted R' l.
Proof.
  intros HR. induction 1 as [|a l Hl IH Ha]; constructor.
  - exact IH.
  - eapply Forall_impl; [|exact Ha]. intros y. apply HR.
Qed.

(** C5. For every stored collection of bookings, [getBookings] resolves to
    a rearrangement of it in which [createdAt] never increases from one
    position to a later one; a booking created later than another stands
    before it.  The store itself is left as it was. *)
Theorem getBookings_newest_first (s : Store) :
  let result := fst (getBookings s) in
  snd (getBookings s) = s /\
  Permutation result (bookings_in s) /\
  StronglySorted (fun a b => (Booking.createdAt b <= Booking.createdAt a)%Z) result /\
  (forall i j a b,
     nth_error result i = Some a -> nth_error result j = Some b ->
     (Booking.createdAt a < Booking.createdAt b)%Z -> (j < i)%nat).
Proof.
  cbv zeta.
  assert (Hsorted : StronglySorted
            (fun a b : Booking => (Booking.createdAt b <= Booking.createdAt a)%Z)
            (fst (getBookings s))).
  { gateway.
    apply StronglySorted_weaken with (R := fun a b => (newest_first a b <= 0)%Z).
    - unfold newest_first. intros x y. lia.
    - apply sort_StronglySorted.
      + exact newest_first_total.
      + exact newest_first_trans. }
  split; [reflexivity|]. split; [|split].
  - gateway. apply sort_Permutation.
  - exact Hsorted.
  - intros i j a b Hi Hj Hlt.
    destruct (Nat.lt_trichotomy i j) as [Hij|[Hij|Hij]].
    + pose proof (StronglySorted_nth_error _ _ Hsorted i j a b Hij Hi Hj) as H.
      simpl in H. lia.
    + subst j. rewrite Hi in Hj. injection Hj as <-. lia.
    + exact Hij.
Qed.

(** *** Users *)

(** C7. [updatePassword] resolves to [true] and keeps the users in their
    places: a user whose id is the given one has the new password and all
    its other fields as before, every other user is unchanged; when no
    user has the id the users are as they were (and, the key being
    present, so is the whole store).  Rooms, bookings, session and config
    are untouched. *)
Theorem updatePassword_changes_only_password (userId newPassword : string) (s : Store) :
  let s' := snd (updatePassword userId newPassword s) in
  fst (updatePassword userId newPassword s) = true /\
  length (users_in s') = length (users_in s) /\
  (forall i u, nth_error (users_in s) i = Some u -> User.id u = userId ->
     exists u', nth_error (users_in s') i = Some u' /\
       User.password u' = Some newPassword /\
       User.id u' = User.id u /\ User.username u' = User.username u /\
       User.role u' = User.role u /\ User.name u' = User.name u) /\
  (forall i u, nth_error (users_in s) i = Some u -> User.id u <> userId ->
     nth_error (users_in s') i = Some u) /\
  ((forall u, In u (users_in s) -> User.id u <> userId) ->
     users_in s' = users_in s /\ (app_users s <> None -> s' = s)) /\
  app_rooms s' = app_rooms s /\ app_bookings s' = app_bookings s /\
  app_current_user s' = app_current_user s /\ app_config s' = app_config s.
Proof.
  cbv zeta. gateway. unfold users_in; simpl.
  fold (users_in s).
  split; [reflexivity|].
  split; [apply length_map|].
  split; [|split; [|split]].
  - intros i u Hi Hid.
    exists (with_password u newPassword).
    split; [|repeat split].
    erewrite map_nth_error by exact Hi.
    apply String.eqb_eq in Hid. now rewrite Hid.
  - intros i u Hi Hid.
    erewrite map_nth_error by exact Hi.
    apply String.eqb_neq in Hid. now rewrite Hid.
  - intros Hno.
    assert (E : map (fun u => if String.eqb (User.id u) userId
                              then with_password u newPassword else u)
                    (users_in s) = users_in s).
    { apply (map_replace_none (fun u => String.eqb (User.id u) userId)
                              (fun u => with_password u newPassword)).
      intros u Hu. now apply eqb_false_of_neq, Hno. }
    split; [exact E|].
    intros Hp. rewrite E. unfold users_in.
    destruct (app_users s) as [l|] eqn:El; [|congruence].
    now apply (put_same USERS).
  - repeat split.
Qed.

Lemma same_username_true (username : string) (u : StoredUser) :
  same_username toLowerCase username u = true <->
  toLowerCase (User.username u) = toLowerCase username.
Proof. unfold same_username. apply String.eqb_eq. Qed.

Lemma find_same_username_None (username : string) (l : list StoredUser) :
  find (same_username toLowerCase username) l = None <->
  (forall u, In u l -> toLowerCase (User.username u) <> toLowerCase username).
Proof.
  split.
  - intros H u Hu E.
    pose proof (find_none _ _ H u Hu) as F.
    apply same_username_true in E. congruence.
  - intros H. induction l as [|a l IH]; simpl; [reflexivity|].
    destruct (same_username toLowerCase username a) eqn:E.
    + apply same_username_true in E. exfalso. apply (H a); [now left|exact E].
    + apply IH. intros u Hu. apply H. now right.
Qed.

(** With unique usernames, the record [find] stops at is the only one of
    that username. *)
Lemma find_same_username_unique (username : string) (l : list StoredUser) (r : StoredUser) :
  NoDup (map (fun u => toLowerCase (User.username u)) l) ->
  In r l -> toLowerCase (User.username r) = toLowerCase username ->
  find (same_username toLowerCase username) l = Some r.
Proof.
  induction l as [|a l IH]; simpl; intros Hnd Hin Hr; [contradiction|].
  inversion Hnd as [|x xs Hnotin Hnd']; subst.
  destruct Hin as [->|Hin].
  - apply same_username_true in Hr. now rewrite Hr.
  - destruct (same_username toLowerCase username a) eqn:E.
    + apply same_username_true in E. exfalso. apply Hnotin.
      rewrite E, <- Hr.
      apply (in_map (fun u => toLowerCase (User.username u))). exact Hin.
    + now apply IH.
Qed.

(** [login] goes by the first record of the username. *)
Lemma login_first_match (username passwordInput : string) (s : Store) :
  login toLowerCase username passwordInput s =
  match find (same_username toLowerCase username) (users_in s) with
  | Some user =>
      if password_is user passwordInput
      then (Some (omit_password user),
            put CURRENT_USER (Some (omit_password user)) s)
      else (None, s)
  | None => (None, s)
  end.
Proof.
  gateway. fold (users_in s).
  destruct (find (same_username toLowerCase username) (users_in s)) as [user|];
    [|reflexivity].
  destruct (password_is user passwordInput); reflexivity.
Qed.

Lemma password_is_true (u : StoredUser) (p : string) :
  password_is u p = true <-> User.password u = Some p.
Proof.
  unfold password_is. destruct (User.password u) as [q|].
  - rewrite String.eqb_eq. split; congruence.
  - split; discriminate.
Qed.

(** C2. [login] resolves either to a user or to [null].  It resolves to a
    user only if some stored record has the username, ignoring case, and
    exactly the password: the resolved value is that record without its
    password, and the session slot is set to it.  When no stored record is
    such, it resolves to [null], and whenever it resolves to [null] the
    store, the session slot included, is as it was.  Usernames being
    unique ignoring case (the data model's invariant, which [register]
    keeps), it resolves to a user if, and so exactly when, some stored
    record is such. *)
Theorem login_iff_matching_record (username passwordInput : string) (s : Store) :
  let matching (r : StoredUser) :=
    In r (users_in s) /\
    toLowerCase (User.username r) = toLowerCase username /\
    User.password r = Some passwordInput in
  let result := login toLowerCase username passwordInput s in
  (forall v, fst result = Some v ->
     exists r, matching r /\ v = omit_password r /\
               snd result = put CURRENT_USER (Some v) s) /\
  ((~ exists r, matching r) -> fst result = None) /\
  (fst result = None -> snd result = s) /\
  (unique_usernames toLowerCase s ->
     forall r, matching r ->
       result = (Some (omit_password r), put CURRENT_USER (Some (omit_password r)) s)) /\
  (unique_usernames toLowerCase s ->
     ((exists v, fst result = Some v) <-> (exists r, matching r))).
Proof.
  cbv zeta.
  assert (Hhit : unique_usernames toLowerCase s ->
            forall r,
            In r (users_in s) /\
            toLowerCase (User.username r) = toLowerCase username /\
            User.password r = Some passwordInput ->
            login toLowerCase username passwordInput s =
            (Some (omit_password r), put CURRENT_USER (Some (omit_password r)) s)).
  { intros Hunique r (Hin & Hname & Hpw).
    rewrite login_first_match.
    rewrite (find_same_username_unique username _ r Hunique Hin Hname).
    apply password_is_true in Hpw. now rewrite Hpw. }
  assert (Hback : forall v,
            fst (login toLowerCase username passwordInput s) = Some v ->
            exists r, (In r (users_in s) /\
              toLowerCase (User.username r) = toLowerCase username /\
              User.password r = Some passwordInput) /\
              v = omit_password r /\
              snd (login toLowerCase username passwordInput s)
              = put CURRENT_USER (Some v) s).
  { intros v. rewrite login_first_match.
    destruct (find (same_username toLowerCase username) (users_in s)) as [user|] eqn:F;
      [|discriminate].
    destruct (password_is user passwordInput) eqn:P; [|discriminate].
    simpl. intros H. injection H as <-. exists user.
    apply find_some in F. destruct F as [Hin Hname].
    split; [|split; reflexivity].
    split; [exact Hin|]. split.
    - now apply same_username_true.
    - now apply password_is_true. }
  split; [exact Hback|].
  split; [|split; [|split; [exact Hhit|]]].
  - intros Hnone.
    destruct (fst (login toLowerCase username passwordInput s)) as [v|] eqn:E;
      [|reflexivity].
    exfalso. apply Hnone.
    destruct (Hback v eq_refl) as (r & Hr & _). now exists r.
  - rewrite login_first_match.
    destruct (find (same_username toLowerCase username) (users_in s)) as [user|];
      [|reflexivity].
    destruct (password_is user passwordInput); [discriminate|reflexivity].
  - intros Hunique. split.
    + intros [v Hv]. destruct (Hback v Hv) as (r & Hr & _). now exists r.
    + intros [r Hr]. exists (omit_password r). now rewrite (Hhit Hunique r Hr).
Qed.

(** C3. When some stored user has the requested username ignoring case,
    [register] resolves to a message and leaves the whole store, the users
    included, as it was.  When none has, it appends exactly one user, made
    of the arguments with role [USER] and a generated id, resolves to that
    user without the password, and sets the session slot to it. *)
Theorem register_rejects_taken_username
  (now : Z) (name username password : string) (s : Store) :
  ((exists u, In u (users_in s) /\
              toLowerCase (User.username u) = toLowerCase username) ->
     register toLowerCase now name username password s
     = (inr "El nombre de usuario ya existe.", s)) /\
  ((forall u, In u (users_in s) ->
              toLowerCase (User.username u) <> toLowerCase username) ->
     let newUser :=
       User.mk ("u-" ++ toString now) username (Some password) USER name in
     let s' := snd (register toLowerCase now name username password s) in
     fst (register toLowerCase now name username password s)
       = inl (omit_password newUser) /\
     users_in s' = (users_in s ++ [newUser])%list /\
     app_current_user s' = Some (omit_password newUser) /\
     app_rooms s' = app_rooms s /\ app_bookings s' = app_bookings s /\
     app_config s' = app_config s).
Proof.
  split.
  - intros (u & Hin & Hname).
    gateway. fold (users_in s).
    destruct (find (same_username toLowerCase username) (users_in s)) eqn:F.
    + reflexivity.
    + exfalso. rewrite find_same_username_None in F. now apply (F u).
  - intros Hfree. cbv zeta.
    apply find_same_username_None in Hfree.
    gateway. fold (users_in s). rewrite Hfree. simpl.
    repeat split.
Qed.

(** *** The session slot *)

Lemma omit_password_None (u : StoredUser) : User.password (omit_password u) = None.
Proof. reflexivity. Qed.

(** What a call can do to the session slot: leave it, clear it, or set it
    to a user stripped of its password. *)
Lemma perform_session_slot (c : Call BookingDetails) (s : Store) :
  app_current_user (perform toLowerCase c s) = app_current_user s \/
  app_current_user (perform toLowerCase c s) = None \/
  exists u, app_current_user (perform toLowerCase c s) = Some (omit_password u).
Proof.
  destruct c; simpl; try (left; reflexivity).
  - left. gateway.
    destruct (app_rooms s), (app_bookings s), (app_users s), (app_config s);
      reflexivity.
  - rewrite login_first_match.
    destruct (find (same_username toLowerCase username) (users_in s)) as [user|];
      [|left; reflexivity].
    destruct (password_is user passwordInput); [|left; reflexivity].
    right; right. exists user. reflexivity.
  - gateway.
    destruct (find (same_username toLowerCase username) _); [left; reflexivity|].
    right; right. eexists. reflexivity.
  - right; left. reflexivity.
Qed.

Lemma perform_session_safe (c : Call BookingDetails) (s : Store) :
  session_safe s -> session_safe (perform toLowerCase c s).
Proof.
  intros Hs v Hv.
  destruct (perform_session_slot c s) as [E|[E|[u E]]]; rewrite E in Hv.
  - now apply Hs.
  - discriminate.
  - injection Hv as <-. apply omit_password_None.
Qed.

Lemma perform_all_session_safe (calls : list (Call BookingDetails)) (s : Store) :
  session_safe s -> session_safe (perform_all toLowerCase calls s).
Proof.
  revert s. induction calls as [|c calls IH]; intros s Hs; simpl.
  - exact Hs.
  - apply IH. now apply perform_session_safe.
Qed.

(** C4. For every store and every input, a user that [login] or
    [register] resolves to carries no password.  [getCurrentUser] returns
    what the session slot holds: starting from a store whose session slot
    is absent or holds no password, after any sequence of calls of the
    gateway the user it returns carries no password. *)
Theorem no_password_in_resolved_users :
  (forall (s : Store) username passwordInput v,
     fst (login toLowerCase username passwordInput s) = Some v ->
     User.password v = None) /\
  (forall (s : Store) now name username password v,
     fst (register toLowerCase now name username password s) = inl v ->
     User.password v = None) /\
  (forall (s0 : Store) (calls : list (Call BookingDetails)) v,
     session_safe s0 ->
     fst (getCurrentUser (perform_all toLowerCase calls s0)) = Some v ->
     User.password v = None).
Proof.
  split; [|split].
  - intros s username passwordInput v. rewrite login_first_match.
    destruct (find (same_username toLowerCase username) (users_in s)) as [user|];
      [|discriminate].
    destruct (password_is user passwordInput); [|discriminate].
    simpl. intros H. injection H as <-. reflexivity.
  - intros s now name username password v. gateway.
    destruct (find (same_username toLowerCase username) _); [discriminate|].
    simpl. intros H. injection H as <-. reflexivity.
  - intros s0 calls v Hs0 Hv.
    apply (perform_all_session_safe calls s0 Hs0). exact Hv.
Qed.

(** *** Usernames stay unique *)

Lemma NoDup_snoc {A} (l : list A) (x : A) :
  NoDup l -> ~ In x l -> NoDup (l ++ [x])%list.
Proof.
  induction 1 as [|a l Ha Hl IH]; simpl; intros Hx.
  - constructor; [intros []|constructor].
  - constructor.
    + rewrite in_app_iff. intros [H|[H|[]]]; [now apply Ha|].
      apply Hx. now left.
    + apply IH. intros H. apply Hx. now right.
Qed.

Section SeedUsernames.

(** The two seed usernames differ, also ignoring case. *)
Hypothesis seed_usernames_differ : toLowerCase "admin" <> toLowerCase "user".

Lemma perform_unique_usernames (c : Call BookingDetails) (s : Store) :
  unique_usernames toLowerCase s -> unique_usernames toLowerCase (perform toLowerCase c s).
Proof.
  unfold unique_usernames. intros Hs.
  destruct c; simpl; try exact Hs.
  - gateway. unfold users_in in *.
    destruct s as [us rs bs cu cf]; destruct us, rs, bs, cf;
      simpl in *; try exact Hs;
      (constructor; [intros [H|[]]; now apply seed_usernames_differ
                    |constructor; [intros []|constructor]]).
  - rewrite login_first_match.
    destruct (find (same_username toLowerCase username) (users_in s)) as [user|];
      [|exact Hs].
    destruct (password_is user passwordInput); exact Hs.
  - gateway. fold (users_in s).
    destruct (find (same_username toLowerCase username) (users_in s)) eqn:F;
      [exact Hs|].
    unfold users_in at 1; simpl.
    rewrite map_app. simpl. apply NoDup_snoc; [exact Hs|].
    rewrite in_map_iff. intros (u & Hname & Hin).
    rewrite find_same_username_None in F. now apply (F u).
  - gateway. unfold users_in at 1; simpl. fold (users_in s).
    rewrite map_map.
    erewrite map_ext; [exact Hs|].
    intros u. simpl. now destruct (String.eqb (User.id u) userId).
Qed.

Lemma perform_all_unique_usernames (calls : list (Call BookingDetails)) (s : Store) :
  unique_usernames toLowerCase s ->
  unique_usernames toLowerCase (perform_all toLowerCase calls s).
Proof.
  revert s. induction calls as [|c calls IH]; intros s Hs; simpl.
  - exact Hs.
  - apply IH. now apply perform_unique_usernames.
Qed.

(** *** The keys stay present *)

Lemma initializeStorage_initialized (s : Store) :
  initialized (snd (initializeStorage s)).
Proof.
  destruct s as [us rs bs cu cf].
  destruct us, rs, bs, cf; gateway; repeat split; discriminate.
Qed.

Lemma perform_initialized (c : Call BookingDetails) (s : Store) :
  initialized s -> initialized (perform toLowerCase c s).
Proof.
  intros (Hu & Hr & Hb & Hc).
  destruct c; simpl; try (repeat split; assumption).
  - apply initializeStorage_initialized.
  - repeat split; try assumption. discriminate.
  - rewrite login_first_match.
    destruct (find (same_username toLowerCase username) (users_in s)) as [user|];
      [|repeat split; assumption].
    destruct (password_is user passwordInput); repeat split; assumption.
  - gateway.
    destruct (find (same_username toLowerCase username) _); simpl;
      repeat split; try assumption; discriminate.
  - repeat split; try assumption. discriminate.
  - repeat split; try assumption. discriminate.
  - repeat split; try assumption. discriminate.
  - repeat split; try assumption; discriminate.
  - repeat split; try assumption. discriminate.
  - repeat split; try assumption. discriminate.
  - repeat split; try assumption. discriminate.
Qed.

(** Once the module is loaded, whatever calls follow, the store has its
    four keys, unique usernames and a session slot without password. *)
Lemma loaded_store_invariants (calls : list (Call BookingDetails)) (s0 : Store) :
  unique_usernames toLowerCase s0 -> session_safe s0 ->
  let s := perform_all toLowerCase (CallInitializeStorage :: calls) s0 in
  initialized s /\ unique_usernames toLowerCase s /\ session_safe s.
Proof.
  intros Hu Hs. cbv zeta. split; [|split].
  - simpl.
    generalize (initializeStorage_initialized s0).
    generalize (snd (initializeStorage s0)).
    induction calls as [|c calls IH]; intros s Hi; simpl.
    + exact Hi.
    + apply IH. now apply perform_initialized.
  - now apply perform_all_unique_usernames.
  - now apply perform_all_session_safe.
Qed.

End SeedUsernames.

(** *** Initialization and reads *)

(** C8. From any starting store, initializing twice leaves exactly the
    store that initializing once leaves.  A key that is present keeps its
    value and an absent one gets its seed; the session slot is not
    touched. *)
Theorem initializeStorage_idempotent (s : Store) :
  let s1 := snd (initializeStorage s) in
  snd (initializeStorage s1) = s1 /\
  (forall v, app_rooms s = Some v -> app_rooms s1 = Some v) /\
  (app_rooms s = None -> app_rooms s1 = Some SEED_ROOMS) /\
  (forall v, app_bookings s = Some v -> app_bookings s1 = Some v) /\
  (app_bookings s = None -> app_bookings s1 = Some []) /\
  (forall v, app_users s = Some v -> app_users s1 = Some v) /\
  (app_users s = None -> app_users s1 = Some SEED_USERS) /\
  (forall v, app_config s = Some v -> app_config s1 = Some v) /\
  (app_config s = None -> app_config s1 = Some SEED_CONFIG) /\
  app_current_user s1 = app_current_user s.
Proof.
  cbv zeta. destruct s as [us rs bs cu cf].
  destruct us, rs, bs, cf; gateway;
    repeat split; intros; try congruence; discriminate.
Qed.

(** C10. Reading a store that lacks a key does not fail and gives the
    default: [getRooms] and [getBookings] resolve to the empty list,
    [getAppConfig] to the seed config, and [getCurrentUser] returns
    [null], each leaving the store as it is.  The operations that read a
    collection before writing it take an absent one for the empty one and
    resolve as well. *)
Theorem reads_default_on_absent_keys (s : Store) :
  (app_rooms s = None -> getRooms s = ([], s)) /\
  (app_bookings s = None -> getBookings s = ([], s)) /\
  (app_config s = None -> getAppConfig s = (SEED_CONFIG, s)) /\
  (app_current_user s = None -> getCurrentUser s = (None, s)) /\
  (app_users s = None ->
     forall username passwordInput,
       login toLowerCase username passwordInput s = (None, s)) /\
  (app_users s = None ->
     forall userId newPassword,
       updatePassword userId newPassword s = (true, put USERS (Some []) s)) /\
  (app_rooms s = None ->
     forall updatedRoom, updateRoom updatedRoom s = (true, put ROOMS (Some []) s)) /\
  (app_rooms s = None -> app_bookings s = None ->
     forall roomId,
       deleteRoom roomId s = (true, put BOOKINGS (Some []) (put ROOMS (Some []) s))) /\
  (app_bookings s = None ->
     forall updatedBooking,
       updateBooking updatedBooking s = (true, put BOOKINGS (Some []) s)) /\
  (app_bookings s = None ->
     forall bookingId status,
       updateBookingStatus bookingId status s = (true, put BOOKINGS (Some []) s)) /\
  (app_users s = None ->
     forall now name username password,
       let newUser :=
         User.mk ("u-" ++ toString now) username (Some password) USER name in
       register toLowerCase now name username password s =
       (inl (omit_password newUser),
        put CURRENT_USER (Some (omit_password newUser))
            (put USERS (Some [newUser]) s))) /\
  (app_rooms s = None ->
     forall now roomData,
       addRoom now roomData s =
       (true,
        put ROOMS
            (Some [Room.mk ("room-" ++ toString now) (RoomData.name roomData)
                     (RoomData.capacity roomData) (RoomData.features roomData)
                     (RoomData.imageUrl roomData)]) s)) /\
  (app_bookings s = None ->
     forall now_id now_created booking,
       createBooking now_id now_created booking s =
       (true,
        put BOOKINGS
            (Some [Booking.mk (toString now_id) (BookingData.roomId booking)
                     (BookingData.details booking) PENDING now_created]) s)).
Proof.
  repeat split; gateway; intros; repeat
    match goal with
    | H : _ = None |- _ => rewrite H; clear H
    end; reflexivity.
Qed.

End Properties.

(* ================================================================= *)
(** ** The properties at concrete stores *)

Lemma seeded_storage_unique_usernames :
  unique_usernames toLowerCase_ascii seeded_storage.
Proof.
  unfold unique_usernames. simpl.
  constructor; [intros [H|[]]; discriminate|].
  constructor; [intros []|constructor].
Qed.

Lemma empty_storage_session_safe : session_safe empty_storage.
Proof. intros v H. discriminate. Qed.

(** From an empty [localStorage], loading the module and then calling the
    gateway in any way leaves a store with its four keys, unique usernames
    and a session slot without password. *)
Lemma stores_left_by_the_gateway (calls : list (Call string)) :
  let s := perform_all toLowerCase_ascii (CallInitializeStorage :: calls) empty_storage in
  initialized s /\ unique_usernames toLowerCase_ascii s /\ session_safe s.
Proof.
  apply loaded_store_invariants.
  - discriminate.
  - constructor.
  - exact empty_storage_session_safe.
Qed.

(** Deleting the seed room of [booked_storage] removes its two bookings
    and keeps the third. *)
Lemma deleteRoom_cascades_witness :
  let s' := snd (deleteRoom "room-1" booked_storage) in
  rooms_in s' = [] /\
  (forall b, In b (bookings_in s') -> Booking.roomId b <> "room-1") /\
  In (Booking.mk "1003" "room-9" "Luis, martes 9-10" APPROVED 1003) (bookings_in s').
Proof.
  cbv zeta.
  pose proof (deleteRoom_cascades (BookingDetails := string) "room-1" booked_storage)
    as (_ & _ & Hb & _ & Hkeep & _).
  split; [reflexivity|]. split; [exact Hb|].
  apply Hkeep. split.
  - simpl. right. left. reflexivity.
  - discriminate.
Defined.

(** Room [room-9] does not exist, and its booking is removed all the
    same. *)
Lemma deleteRoom_unknown_room_still_cascades_witness :
  (forall r, In r (rooms_in booked_storage) -> Room.id r <> "room-9") /\
  let s' := snd (deleteRoom "room-9" booked_storage) in
  fst (deleteRoom "room-9" booked_storage) = true /\
  rooms_in s' = rooms_in booked_storage /\
  (app_rooms booked_storage <> None -> app_rooms s' = app_rooms booked_storage) /\
  (forall b, In b (bookings_in booked_storage) -> Booking.roomId b = "room-9" ->
             ~ In b (bookings_in s')) /\
  (forall b, In b (bookings_in s') <->
             In b (bookings_in booked_storage) /\ Booking.roomId b <> "room-9").
Proof.
  assert (Hno : forall r, In r (rooms_in booked_storage) -> Room.id r <> "room-9").
  { simpl. intros r [<-|[]]. discriminate. }
  split; [exact Hno|].
  exact (deleteRoom_unknown_room_still_cascades "room-9" booked_storage Hno).
Defined.

(** [ADMIN] with the right password logs the seed administrator in. *)
Lemma login_iff_matching_record_witness :
  unique_usernames toLowerCase_ascii seeded_storage /\
  login toLowerCase_ascii "ADMIN" "password" seeded_storage =
    (Some (User.mk "u1" "admin" None ADMIN "Administrador Principal"),
     put CURRENT_USER
         (Some (User.mk "u1" "admin" None ADMIN "Administrador Principal"))
         seeded_storage).
Proof.
  split; [exact seeded_storage_unique_usernames|].
  pose proof (login_iff_matching_record toLowerCase_ascii "ADMIN" "password"
                seeded_storage) as (_ & _ & _ & Hhit & _).
  apply (Hhit seeded_storage_unique_usernames
              (User.mk "u1" "admin" (Some "password") ADMIN "Administrador Principal")).
  split; [|split].
  - simpl. left. reflexivity.
  - reflexivity.
  - reflexivity.
Defined.

(** Where two records share a username up to case, [login] goes by the
    first: the second record has the username and the password asked for,
    and [login] resolves to [null]. *)
Lemma login_duplicate_usernames_counterexample :
  (exists r, In r (users_in duplicate_storage) /\
             toLowerCase_ascii (User.username r) = toLowerCase_ascii "ana" /\
             User.password r = Some "clave2") /\
  login toLowerCase_ascii "ana" "clave2" duplicate_storage = (None, duplicate_storage).
Proof.
  split; [|reflexivity].
  exists (User.mk "u8" "Ana" (Some "clave2") USER "Ana Dos").
  split; [simpl; right; left; reflexivity|split; reflexivity].
Qed.

(** [getCurrentUser] returns the session slot as it is stored, password
    and all. *)
Lemma getCurrentUser_unstripped_session_counterexample :
  exists v,
    fst (getCurrentUser unstripped_session_storage) = Some v /\
    User.password v = Some "password".
Proof. eexists. split; reflexivity. Qed.

(** [ADMIN] is taken, [ana] is free. *)
Lemma register_rejects_taken_username_witness :
  register toLowerCase_ascii 1700000000000 "Ana" "ADMIN" "pw" seeded_storage
  = (inr "El nombre de usuario ya existe.", seeded_storage) /\
  fst (register toLowerCase_ascii 1700000000000 "Ana" "ana" "pw" seeded_storage)
  = inl (User.mk "u-1700000000000" "ana" None USER "Ana") /\
  users_in (snd (register toLowerCase_ascii 1700000000000 "Ana" "ana" "pw" seeded_storage))
  = (SEED_USERS ++ [User.mk "u-1700000000000" "ana" (Some "pw") USER "Ana"])%list.
Proof.
  split.
  - apply (proj1 (register_rejects_taken_username toLowerCase_ascii
                    1700000000000 "Ana" "ADMIN" "pw" seeded_storage)).
    exists (User.mk "u1" "admin" (Some "password") ADMIN "Administrador Principal").
    split; [simpl; left; reflexivity|reflexivity].
  - assert (Hfree : forall u, In u (users_in seeded_storage) ->
                      toLowerCase_ascii (User.username u) <> toLowerCase_ascii "ana").
    { simpl. intros u [<-|[<-|[]]]; discriminate. }
    destruct (proj2 (register_rejects_taken_username toLowerCase_ascii
                       1700000000000 "Ana" "ana" "pw" seeded_storage) Hfree)
      as (Hres & Husers & _).
    split; [exact Hres|exact Husers].
Defined.

(** After loading, logging in and changing a password, the current user
    has no password. *)
Lemma no_password_in_resolved_users_witness :
  session_safe empty_storage /\
  exists v,
    fst (getCurrentUser
           (perform_all toLowerCase_ascii
              [CallInitializeStorage; CallLogin "Admin" "password";
               CallUpdatePassword "u1" "secreto"]
              empty_storage)) = Some v /\
    User.id v = "u1" /\ User.password v = None.
Proof.
  split; [exact empty_storage_session_safe|].
  eexists. split; [reflexivity|]. split; [reflexivity|].
  destruct (no_password_in_resolved_users (BookingDetails := string) toLowerCase_ascii)
    as (_ & _ & Hcurrent).
  apply (Hcurrent empty_storage
           [CallInitializeStorage; CallLogin "Admin" "password";
            CallUpdatePassword "u1" "secreto"]).
  - exact empty_storage_session_safe.
  - reflexivity.
Defined.

(** The booking created last comes first. *)
Lemma getBookings_newest_first_witness :
  map Booking.id (fst (getBookings booked_storage)) = ["1003"; "1002"; "1001"] /\
  Permutation (fst (getBookings booked_storage)) sample_bookings /\
  StronglySorted (fun a b => (Booking.createdAt b <= Booking.createdAt a)%Z)
                 (fst (getBookings booked_storage)).
Proof.
  destruct (getBookings_newest_first booked_storage) as (_ & Hperm & Hsorted & _).
  split; [reflexivity|]. split; [exact Hperm|exact Hsorted].
Defined.

(** On an empty [localStorage] an update under an id nobody has is no
    no-op: the key, absent before, holds the empty collection afterwards,
    and loading the module then no longer seeds the rooms. *)
Lemma update_of_missing_id_absent_key_counterexample :
  (forall r, In r (rooms_in empty_storage) -> Room.id r <> "room-7") /\
  app_rooms empty_storage = None /\
  app_rooms (snd (updateRoom (Room.mk "room-7" "Sala" 8 [] "") empty_storage))
  = Some [] /\
  rooms_in (snd (initializeStorage empty_storage)) = SEED_ROOMS /\
  rooms_in (snd (initializeStorage
                   (snd (updateRoom (Room.mk "room-7" "Sala" 8 [] "") empty_storage))))
  = [] /\
  app_bookings empty_storage = None /\
  app_bookings
    (snd (updateBooking (Booking.mk "9999" "room-1" "nadie" REJECTED 5) empty_storage))
  = Some [] /\
  app_bookings (snd (updateBookingStatus "9999" CANCELLED empty_storage)) = Some [].
Proof.
  split; [intros r []|]. repeat split.
Qed.

(** Updating a room, a booking and a status under ids nobody has: with
    the keys present the store is what it was, with the key absent it
    gets the empty collection. *)
Lemma update_of_missing_id_is_noop_witness :
  snd (updateRoom (Room.mk "room-7" "Sala" 8 [] "") booked_storage) = booked_storage /\
  snd (updateBooking (Booking.mk "9999" "room-1" "nadie" REJECTED 5) booked_storage)
  = booked_storage /\
  snd (updateBookingStatus "9999" CANCELLED booked_storage) = booked_storage /\
  snd (updateRoom (Room.mk "room-7" "Sala" 8 [] "") empty_storage)
  = put ROOMS (Some []) empty_storage.
Proof.
  destruct (update_of_missing_id_is_noop booked_storage) as (Hroom & Hbooking & Hstatus).
  destruct (update_of_missing_id_is_noop empty_storage) as (Habsent & _).
  split; [|split; [|split]].
  - destruct (Hroom (Room.mk "room-7" "Sala" 8 [] "")) as (_ & _ & Hsame & _).
    + simpl. intros r [<-|[]]. discriminate.
    + apply Hsame. discriminate.
  - destruct (Hbooking (Booking.mk "9999" "room-1" "nadie" REJECTED 5))
      as (_ & _ & Hsame & _).
    + simpl. intros b [<-|[<-|[<-|[]]]]; discriminate.
    + apply Hsame. discriminate.
  - destruct (Hstatus "9999" CANCELLED) as (_ & _ & Hsame & _).
    + simpl. intros b [<-|[<-|[<-|[]]]]; discriminate.
    + apply Hsame. discriminate.
  - destruct (Habsent (Room.mk "room-7" "Sala" 8 [] "")) as (_ & _ & _ & Hwritten).
    + intros r [].
    + apply Hwritten. reflexivity.
Defined.

(** The password of [u2] changes and nothing else; nobody is [u9]. *)
Lemma updatePassword_changes_only_password_witness :
  users_in (snd (updatePassword "u2" "nueva" seeded_storage))
  = [ User.mk "u1" "admin" (Some "password") ADMIN "Administrador Principal";
      User.mk "u2" "user" (Some "nueva") USER "Juan Pérez" ] /\
  nth_error (users_in (snd (updatePassword "u2" "nueva" seeded_storage))) 0
  = Some (User.mk "u1" "admin" (Some "password") ADMIN "Administrador Principal") /\
  snd (updatePassword "u9" "nueva" seeded_storage) = seeded_storage.
Proof.
  split; [reflexivity|]. split.
  - destruct (updatePassword_changes_only_password "u2" "nueva" seeded_storage)
      as (_ & _ & _ & Hother & _).
    apply Hother; [reflexivity|discriminate].
  - destruct (updatePassword_changes_only_password "u9" "nueva" seeded_storage)
      as (_ & _ & _ & _ & Hnone & _).
    apply Hnone.
    + simpl. intros u [<-|[<-|[]]]; discriminate.
    + discriminate.
Defined.

(** Loading the module on an empty [localStorage], once or twice. *)
Lemma initializeStorage_idempotent_witness :
  snd (initializeStorage seeded_storage) = seeded_storage /\
  app_rooms seeded_storage = Some SEED_ROOMS /\
  app_users seeded_storage = Some SEED_USERS.
Proof.
  destruct (initializeStorage_idempotent empty_storage)
    as (Hidem & _ & Hrooms & _ & _ & _ & Husers & _).
  split; [exact Hidem|]. split.
  - apply Hrooms. reflexivity.
  - apply Husers. reflexivity.
Defined.

(** Reading the empty [localStorage]. *)
Lemma reads_default_on_absent_keys_witness :
  getRooms empty_storage = ([], empty_storage) /\
  getBookings empty_storage = ([], empty_storage) /\
  getAppConfig empty_storage = (SEED_CONFIG, empty_storage) /\
  getCurrentUser empty_storage = (None, empty_storage).
Proof.
  destruct (reads_default_on_absent_keys toLowerCase_ascii empty_storage)
    as (Hrooms & Hbookings & Hconfig & Hcurrent & _).
  split; [|split; [|split]].
  - apply Hrooms. reflexivity.
  - apply Hbookings. reflexivity.
  - apply Hconfig. reflexivity.
  - apply Hcurrent. reflexivity.
Defined.

(* ================================================================= *)
(** ** Further properties: how the operations compose *)

Lemma find_app_None {A} (f : A -> bool) (l l' : list A) :
  find f l = None -> find f (l ++ l')%list = find f l'.
Proof.
  induction l as [|a l IH]; simpl; [reflexivity|].
  destruct (f a); [discriminate|exact IH].
Qed.

Lemma find_map_same {A} (p : A -> bool) (f : A -> A) (l : list A) :
  (forall x, p (f x) = p x) -> find p (map f l) = option_map f (find p l).
Proof.
  intros Hp. induction l as [|a l IH]; simpl; [reflexivity|].
  rewrite Hp. destruct (p a); [reflexivity|exact IH].
Qed.

Lemma find_same_test {A} (f g : A -> bool) (l : list A) :
  (forall x, f x = g x) -> find f l = find g l.
Proof.
  intros H. induction l as [|a l IH]; simpl; [reflexivity|].
  rewrite H. destruct (g a); [reflexivity|exact IH].
Qed.

Lemma sort_snoc_first {A} (compare : A -> A -> Z) (l : list A) (b : A) :
  (forall x, In x l -> (0 < compare x b)%Z) ->
  sort compare (l ++ [b]) = b :: sort compare l.
Proof.
  induction l as [|a l IH]; simpl; intros H; [reflexivity|].
  rewrite IH by (intros x Hx; apply H; now right).
  simpl.
  destruct (compare a b <=? 0)%Z eqn:E; [|reflexivity].
  apply Z.leb_le in E. specialize (H a (or_introl eq_refl)). lia.
Qed.

Lemma sort_insert_map {A} (compare : A -> A -> Z) (f : A -> A) (x : A) (l : list A) :
  (forall x y, compare (f x) (f y) = compare x y) ->
  sort_insert compare (f x) (map f l) = map f (sort_insert compare x l).
Proof.
  intros H. induction l as [|a l IH]; simpl; [reflexivity|].
  rewrite H. destruct (compare x a <=? 0)%Z; simpl; [reflexivity|].
  now rewrite IH.
Qed.

Lemma sort_map {A} (compare : A -> A -> Z) (f : A -> A) (l : list A) :
  (forall x y, compare (f x) (f y) = compare x y) ->
  sort compare (map f l) = map f (sort compare l).
Proof.
  intros H. induction l as [|a l IH]; simpl; [reflexivity|].
  rewrite IH. now apply sort_insert_map.
Qed.

Lemma filter_twice {A} (f : A -> bool) (l : list A) :
  filter f (filter f l) = filter f l.
Proof.
  induction l as [|a l IH]; simpl; [reflexivity|].
  destruct (f a) eqn:E; simpl; [rewrite E; now f_equal|exact IH].
Qed.

Lemma filter_swap {A} (f g : A -> bool) (l : list A) :
  filter f (filter g l) = filter g (filter f l).
Proof.
  induction l as [|a l IH]; simpl; [reflexivity|].
  destruct (g a) eqn:G, (f a) eqn:F; simpl; rewrite ?G, ?F; now rewrite ?IH.
Qed.

Section Composition.

Context {BookingDetails : Type}.
Variable toLowerCase : string -> string.

Local Abbreviation Booking := (Booking BookingDetails).
Local Abbreviation Store := (Store BookingDetails).

(** *** Config and session *)

(** X1. [updateAppConfig] replaces the config wholesale: [getAppConfig]
    then resolves to the config given, whatever was stored, an earlier
    update leaves no trace, and no other key is touched. *)
Theorem updateAppConfig_then_getAppConfig (config : AppConfig) (s : Store) :
  let s' := snd (updateAppConfig config s) in
  fst (updateAppConfig config s) = true /\
  getAppConfig s' = (config, s') /\
  (forall earlier, snd (updateAppConfig config (snd (updateAppConfig earlier s))) = s') /\
  app_users s' = app_users s /\ app_rooms s' = app_rooms s /\
  app_bookings s' = app_bookings s /\ app_current_user s' = app_current_user s.
Proof.
  cbv zeta. repeat split.
Qed.

(** X2. The session follows [login] and [logout]: after a [login] that
    resolves to a user [getCurrentUser] returns that user; a [login] that
    resolves to [null] leaves whoever was logged in logged in; after
    [logout] [getCurrentUser] returns [null], a second [logout] changes
    nothing, and [logout] touches no other key. *)
Theorem session_follows_login_and_logout (username passwordInput : string) (s : Store) :
  let after := snd (login toLowerCase username passwordInput s) in
  (forall v, fst (login toLowerCase username passwordInput s) = Some v ->
             fst (getCurrentUser after) = Some v) /\
  (fst (login toLowerCase username passwordInput s) = None ->
   fst (getCurrentUser after) = fst (getCurrentUser s)) /\
  fst (getCurrentUser (snd (logout after))) = None /\
  snd (logout (snd (logout s))) = snd (logout s) /\
  app_users (snd (logout s)) = app_users s /\
  app_rooms (snd (logout s)) = app_rooms s /\
  app_bookings (snd (logout s)) = app_bookings s /\
  app_config (snd (logout s)) = app_config s.
Proof.
  cbv zeta. rewrite login_first_match.
  destruct (find (same_username toLowerCase username) (users_in s)) as [user|];
    [destruct (password_is user passwordInput)|]; simpl.
  - repeat split; intros; try discriminate; assumption.
  - repeat split; intros; discriminate.
  - repeat split; intros; discriminate.
Qed.

(** What [register] does when the username is free. *)
Lemma register_free (now : Z) (name username password : string) (s : Store) :
  find (same_username toLowerCase username) (users_in s) = None ->
  register toLowerCase now name username password s =
  (inl (omit_password (User.mk ("u-" ++ toString now) username (Some password) USER name)),
   put CURRENT_USER
       (Some (omit_password
                (User.mk ("u-" ++ toString now) username (Some password) USER name)))
       (put USERS
            (Some (users_in s ++
                   [User.mk ("u-" ++ toString now) username (Some password) USER name])%list)
            s)).
Proof.
  intros F. gateway. fold (users_in s). rewrite F. reflexivity.
Qed.

(** What [register] does when the username is taken. *)
Lemma register_taken (now : Z) (name username password : string) (s : Store) (u : StoredUser) :
  find (same_username toLowerCase username) (users_in s) = Some u ->
  register toLowerCase now name username password s =
  (inr "El nombre de usuario ya existe.", s).
Proof.
  intros F. gateway. fold (users_in s). rewrite F. reflexivity.
Qed.

(** X3. Whoever has registered is logged in and can log in again: when
    [register] resolves to a user, [getCurrentUser] returns that user, a
    [login] with the same password and the username in any case resolves
    to that same user, and a [login] with another password resolves to
    [null]. *)
Theorem register_then_login (now : Z) (name username password : string) (s : Store)
  (v : User)
  (Hregistered : fst (register toLowerCase now name username password s) = inl v) :
  let s' := snd (register toLowerCase now name username password s) in
  fst (getCurrentUser s') = Some v /\
  (forall username', toLowerCase username' = toLowerCase username ->
     fst (login toLowerCase username' password s') = Some v) /\
  (forall other, other <> password ->
     fst (login toLowerCase username other s') = None).
Proof.
  cbv zeta.
  destruct (find (same_username toLowerCase username) (users_in s)) as [u|] eqn:F.
  - rewrite (register_taken now name username password s u F) in Hregistered.
    discriminate.
  - rewrite (register_free now name username password s F) in *.
    simpl in Hregistered. injection Hregistered as <-.
    split; [reflexivity|]. split.
    + intros username' Hcase.
      rewrite login_first_match. unfold users_in at 1; simpl.
      assert (F' : find (same_username toLowerCase username') (users_in s) = None).
      { rewrite find_same_username_None in *. intros u Hu.
        rewrite Hcase. now apply F. }
      rewrite (find_app_None _ _ _ F'). simpl.
      unfold same_username at 1; simpl.
      rewrite Hcase, String.eqb_refl.
      unfold password_is; simpl. rewrite String.eqb_refl. reflexivity.
    + intros other Hother.
      rewrite login_first_match. unfold users_in at 1; simpl.
      rewrite (find_app_None _ _ _ F). simpl.
      unfold same_username at 1; simpl. rewrite String.eqb_refl.
      unfold password_is; simpl.
      apply not_eq_sym, String.eqb_neq in Hother. rewrite Hother. reflexivity.
Qed.

(** X4. A username can be registered once: after a [register], whatever
    it resolved to, a [register] of a username that differs at most in
    case resolves to the message and leaves the store as it is. *)
Theorem register_twice_is_rejected
  (now1 now2 : Z) (name1 name2 username1 username2 password1 password2 : string)
  (s : Store) (Hcase : toLowerCase username2 = toLowerCase username1) :
  let s1 := snd (register toLowerCase now1 name1 username1 password1 s) in
  register toLowerCase now2 name2 username2 password2 s1 =
  (inr "El nombre de usuario ya existe.", s1).
Proof.
  cbv zeta.
  destruct (find (same_username toLowerCase username1) (users_in s)) as [u|] eqn:F.
  - rewrite (register_taken now1 name1 username1 password1 s u F). simpl.
    apply register_taken with (u := u).
    rewrite <- F. apply find_same_test. intros x.
    unfold same_username. now rewrite Hcase.
  - rewrite (register_free now1 name1 username1 password1 s F). simpl.
    eapply register_taken.
    unfold users_in at 1; simpl.
    assert (F' : find (same_username toLowerCase username2) (users_in s) = None).
    { rewrite find_same_username_None in *. intros u Hu.
      rewrite Hcase. now apply F. }
    rewrite (find_app_None _ _ _ F'). simpl.
    unfold same_username at 1; simpl.
    rewrite Hcase, String.eqb_refl. reflexivity.
Qed.

(** X5. A changed password is the one that logs in: on a store with
    unique usernames, after [updatePassword] of a stored user's id, a
    [login] with that user's username resolves to the user for the new
    password and to [null] for any other, the old one included. *)
Theorem updatePassword_then_login (userId newPassword : string) (s : Store)
  (r : StoredUser)
  (Hunique : unique_usernames toLowerCase s)
  (Hstored : In r (users_in s)) (Hid : User.id r = userId) :
  let s' := snd (updatePassword userId newPassword s) in
  fst (login toLowerCase (User.username r) newPassword s') = Some (omit_password r) /\
  (forall other, other <> newPassword ->
     fst (login toLowerCase (User.username r) other s') = None).
Proof.
  cbv zeta.
  assert (F : find (same_username toLowerCase (User.username r))
                   (users_in (snd (updatePassword userId newPassword s)))
              = Some (with_password r newPassword)).
  { gateway. unfold users_in at 1; simpl. fold (users_in s).
    rewrite find_map_same.
    - rewrite (find_same_username_unique toLowerCase (User.username r) _ r
                 Hunique Hstored eq_refl).
      simpl. apply String.eqb_eq in Hid. now rewrite Hid.
    - intros x. unfold same_username.
      now destruct (String.eqb (User.id x) userId). }
  split.
  - rewrite login_first_match, F.
    unfold password_is; simpl. rewrite String.eqb_refl. reflexivity.
  - intros other Hother.
    rewrite login_first_match, F.
    unfold password_is; simpl.
    apply not_eq_sym, String.eqb_neq in Hother. rewrite Hother. reflexivity.
Qed.

(** *** Rooms *)

Lemma toString_inj (a b : Z) : toString a = toString b -> a = b.
Proof.
  unfold toString. intros H.
  apply DecimalZ.to_int_inj.
  assert (Hnil : forall z, Z.to_int z <> Decimal.Pos Decimal.Nil /\
                           Z.to_int z <> Decimal.Neg Decimal.Nil).
  { intros z. destruct z as [|p|p]; simpl; split; try discriminate;
      intros E; injection E as E;
      now apply DecimalPos.Unsigned.to_uint_nonnil in E. }
  destruct (Hnil a) as [Ha1 Ha2]. destruct (Hnil b) as [Hb1 Hb2].
  pose proof (NilZero.isi _ Ha1 Ha2) as Ia.
  pose proof (NilZero.isi _ Hb1 Hb2) as Ib.
  rewrite H in Ia. congruence.
Qed.

(** X6. [addRoom] resolves to [true] and appends one room: [getRooms]
    afterwards resolves to the rooms before followed by a room made of
    the data given, whose id is [room-] and the clock reading, so not
    empty; users, bookings, session and config are untouched. *)
Theorem addRoom_then_getRooms (now : Z) (roomData : RoomData.t) (s : Store) :
  let s' := snd (addRoom now roomData s) in
  fst (addRoom now roomData s) = true /\
  fst (getRooms s') = (fst (getRooms s) ++ [room_added now roomData])%list /\
  length (fst (getRooms s')) = S (length (fst (getRooms s))) /\
  Room.id (room_added now roomData) <> "" /\
  app_users s' = app_users s /\ app_bookings s' = app_bookings s /\
  app_current_user s' = app_current_user s /\ app_config s' = app_config s.
Proof.
  cbv zeta. gateway.
  split; [reflexivity|]. split; [reflexivity|]. split.
  - rewrite length_app. simpl. lia.
  - split; [discriminate|]. repeat split.
Qed.

(** X7. Generated ids follow the clock: two rooms added one after the
    other have the same id exactly when they were added at the same clock
    reading, whatever their data. *)
Theorem addRoom_ids_collide_iff_same_clock
  (now1 now2 : Z) (data1 data2 : RoomData.t) (s : Store) :
  rooms_in (snd (addRoom now2 data2 (snd (addRoom now1 data1 s)))) =
    (rooms_in s ++ [room_added now1 data1; room_added now2 data2])%list /\
  (Room.id (room_added now1 data1) = Room.id (room_added now2 data2) <-> now1 = now2).
Proof.
  split.
  - gateway. unfold rooms_in; simpl. now rewrite <- app_assoc.
  - simpl. split.
    + intros H. injection H as H.
      repeat match type of H with
             | String _ _ = String _ _ => injection H as _ H
             end.
      now apply toString_inj.
    + now intros ->.
Qed.

(** X8. [updateRoom] replaces by id and in place: afterwards the rooms
    have the same ids at the same positions; every room that had the id
    of the room given is that room, every other is as before; doing it
    twice is doing it once; users, bookings, session and config are
    untouched. *)
Theorem updateRoom_replaces_in_place (updatedRoom : Room) (s : Store) :
  let s' := snd (updateRoom updatedRoom s) in
  map Room.id (rooms_in s') = map Room.id (rooms_in s) /\
  (forall i r, nth_error (rooms_in s) i = Some r ->
     Room.id r = Room.id updatedRoom -> nth_error (rooms_in s') i = Some updatedRoom) /\
  (forall i r, nth_error (rooms_in s) i = Some r ->
     Room.id r <> Room.id updatedRoom -> nth_error (rooms_in s') i = Some r) /\
  snd (updateRoom updatedRoom s') = s' /\
  app_users s' = app_users s /\ app_bookings s' = app_bookings s /\
  app_current_user s' = app_current_user s /\ app_config s' = app_config s.
Proof.
  cbv zeta. gateway. unfold rooms_in; simpl. fold (rooms_in s).
  split; [|split; [|split; [|split]]].
  - rewrite map_map. apply map_ext_in. intros r _.
    destruct (String.eqb (Room.id r) (Room.id updatedRoom)) eqn:E; [|reflexivity].
    apply String.eqb_eq in E. now rewrite E.
  - intros i r Hi Hid. erewrite map_nth_error by exact Hi.
    apply String.eqb_eq in Hid. now rewrite Hid.
  - intros i r Hi Hid. erewrite map_nth_error by exact Hi.
    apply String.eqb_neq in Hid. now rewrite Hid.
  - do 2 f_equal. rewrite map_map. apply map_ext. intros r.
    destruct (String.eqb (Room.id r) (Room.id updatedRoom)) eqn:E.
    + now rewrite String.eqb_refl.
    + now rewrite E.
  - repeat split.
Qed.

(** *** Bookings *)

(** X9. [createBooking] resolves to [true] and appends one booking, made
    of the data given with status [PENDING] and the clock reading as
    [createdAt], whether or not a room of its [roomId] exists;
    [getBookings] afterwards lists it, and lists it first, before the
    listing as it was, when it is newer than every stored booking. *)
Theorem createBooking_then_getBookings
  (now_id now_created : Z) (booking : BookingData.t BookingDetails) (s : Store) :
  let s' := snd (createBooking now_id now_created booking s) in
  let created := booking_created now_id now_created booking in
  fst (createBooking now_id now_created booking s) = true /\
  bookings_in s' = (bookings_in s ++ [created])%list /\
  Booking.status created = PENDING /\
  Booking.createdAt created = now_created /\
  Booking.roomId created = BookingData.roomId booking /\
  Booking.details created = BookingData.details booking /\
  In created (fst (getBookings s')) /\
  ((forall b, In b (bookings_in s) -> (Booking.createdAt b < now_created)%Z) ->
   fst (getBookings s') = created :: fst (getBookings s)) /\
  app_rooms s' = app_rooms s /\ app_users s' = app_users s.
Proof.
  cbv zeta. gateway. unfold bookings_in; simpl. fold (bookings_in s).
  fold (booking_created now_id now_created booking).
  repeat (split; [reflexivity|]).
  split; [|split; [|split; reflexivity]].
  - apply (Permutation_in _ (Permutation_sym (sort_Permutation newest_first _))).
    apply in_or_app. right. now left.
  - intros Hnewer. apply sort_snoc_first.
    intros x Hx. unfold newest_first. simpl. specialize (Hnewer x Hx). lia.
Qed.

Lemma newest_first_with_status (status : BookingStatus) (bookingId : string)
  (x y : Booking) :
  newest_first
    (if String.eqb (Booking.id x) bookingId then with_status x status else x)
    (if String.eqb (Booking.id y) bookingId then with_status y status else y)
  = newest_first x y.
Proof.
  destruct (String.eqb (Booking.id x) bookingId),
           (String.eqb (Booking.id y) bookingId); reflexivity.
Qed.

(** X10. [updateBookingStatus] changes statuses and nothing else: the
    listing of [getBookings] afterwards has the same bookings at the same
    positions, each with its id, room, details and creation time as
    before; a booking of the given id has the given status and any other
    is unchanged. *)
Theorem updateBookingStatus_then_getBookings
  (bookingId : string) (status : BookingStatus) (s : Store) :
  let s' := snd (updateBookingStatus bookingId status s) in
  fst (updateBookingStatus bookingId status s) = true /\
  length (fst (getBookings s')) = length (fst (getBookings s)) /\
  (forall i b, nth_error (fst (getBookings s)) i = Some b ->
     exists b', nth_error (fst (getBookings s')) i = Some b' /\
       Booking.id b' = Booking.id b /\ Booking.roomId b' = Booking.roomId b /\
       Booking.details b' = Booking.details b /\
       Booking.createdAt b' = Booking.createdAt b /\
       (Booking.id b = bookingId -> Booking.status b' = status) /\
       (Booking.id b <> bookingId -> b' = b)).
Proof.
  cbv zeta.
  assert (E : fst (getBookings (snd (updateBookingStatus bookingId status s))) =
              map (fun b : Booking =>
                     if String.eqb (Booking.id b) bookingId
                     then with_status b status else b)
                  (fst (getBookings s))).
  { gateway. apply sort_map. intros x y. apply newest_first_with_status. }
  split; [reflexivity|]. rewrite E. split; [apply length_map|].
  intros i b Hi. erewrite map_nth_error by exact Hi.
  eexists. split; [reflexivity|].
  destruct (String.eqb (Booking.id b) bookingId) eqn:Eid.
  - repeat split. intros Hne. apply String.eqb_eq in Eid. contradiction.
  - repeat split. intros He. apply String.eqb_neq in Eid. contradiction.
Qed.

Lemma replace_by_id_ids {A} (id : A -> string) (x : A) (l : list A) :
  map id (map (fun a => if String.eqb (id a) (id x) then x else a) l) = map id l.
Proof.
  rewrite map_map. apply map_ext. intros a.
  destruct (String.eqb (id a) (id x)) eqn:E; [|reflexivity].
  apply String.eqb_eq in E. now rewrite E.
Qed.

(** X11. [updateBooking] replaces by id and in place: afterwards the
    bookings have the same ids at the same positions; every booking that
    had the id of the booking given is that booking, status, room and
    creation time included, every other is as before; rooms, users,
    session and config are untouched. *)
Theorem updateBooking_replaces_in_place (updatedBooking : Booking) (s : Store) :
  let s' := snd (updateBooking updatedBooking s) in
  fst (updateBooking updatedBooking s) = true /\
  map Booking.id (bookings_in s') = map Booking.id (bookings_in s) /\
  (forall i b, nth_error (bookings_in s) i = Some b ->
     Booking.id b = Booking.id updatedBooking ->
     nth_error (bookings_in s') i = Some updatedBooking) /\
  (forall i b, nth_error (bookings_in s) i = Some b ->
     Booking.id b <> Booking.id updatedBooking ->
     nth_error (bookings_in s') i = Some b) /\
  app_rooms s' = app_rooms s /\ app_users s' = app_users s /\
  app_current_user s' = app_current_user s /\ app_config s' = app_config s.
Proof.
  cbv zeta. gateway. unfold bookings_in; simpl. fold (bookings_in s).
  split; [reflexivity|]. split; [|split; [|split]].
  - apply (replace_by_id_ids Booking.id).
  - intros i b Hi Hid. erewrite map_nth_error by exact Hi.
    apply String.eqb_eq in Hid. now rewrite Hid.
  - intros i b Hi Hid. erewrite map_nth_error by exact Hi.
    apply String.eqb_neq in Hid. now rewrite Hid.
  - repeat split.
Qed.

(** X12. [deleteRoom] is idempotent and two of them commute: deleting a
    room twice leaves the store that deleting it once leaves, and
    deleting two rooms leaves the same store in either order. *)
Theorem deleteRoom_idempotent_and_commutes (roomId1 roomId2 : string) (s : Store) :
  snd (deleteRoom roomId1 (snd (deleteRoom roomId1 s))) = snd (deleteRoom roomId1 s) /\
  snd (deleteRoom roomId1 (snd (deleteRoom roomId2 s))) =
  snd (deleteRoom roomId2 (snd (deleteRoom roomId1 s))).
Proof.
  split; gateway.
  - now rewrite !filter_twice.
  - f_equal; f_equal; apply filter_swap.
Qed.

(** *** What no call does *)

Lemma omit_password_with_password (u : StoredUser) (p : string) :
  omit_password (with_password u p) = omit_password u.
Proof. reflexivity. Qed.

(** One call keeps every user, in place and with its id, username, role
    and name, and may add users after them. *)
Lemma perform_keeps_users (c : Call BookingDetails) (s : Store) :
  exists more,
    map omit_password (users_in (perform toLowerCase c s)) =
    (map omit_password (users_in s) ++ more)%list.
Proof.
  destruct c; simpl;
    try (exists []; now rewrite app_nil_r).
  - gateway. unfold users_in.
    destruct s as [us rs bs cu cf]; destruct us, rs, bs, cf; simpl;
      try (exists []; now rewrite app_nil_r);
      (eexists; reflexivity).
  - exists []. rewrite app_nil_r. rewrite login_first_match.
    destruct (find (same_username toLowerCase username) (users_in s)) as [user|];
      [destruct (password_is user passwordInput)|]; reflexivity.
  - gateway. fold (users_in s).
    destruct (find (same_username toLowerCase username) (users_in s)).
    + exists []. now rewrite app_nil_r.
    + unfold users_in at 1; simpl. rewrite map_app. eexists. reflexivity.
  - exists []. rewrite app_nil_r.
    gateway. unfold users_in at 1; simpl. fold (users_in s).
    rewrite map_map. apply map_ext. intros u.
    now destruct (String.eqb (User.id u) userId).
Qed.

(** X13. No call removes a user or changes who a user is: after any
    sequence of calls the users stored before are still there, in their
    places and each with the id, username, role and name it had (only the
    password may differ); users are only added after them. *)
Theorem users_are_never_removed (calls : list (Call BookingDetails)) (s : Store) :
  exists more,
    map omit_password (users_in (perform_all toLowerCase calls s)) =
    (map omit_password (users_in s) ++ more)%list.
Proof.
  revert s. induction calls as [|c calls IH]; intros s; simpl.
  - exists []. now rewrite app_nil_r.
  - destruct (IH (perform toLowerCase c s)) as [more2 H2].
    destruct (perform_keeps_users c s) as [more1 H1].
    exists (more1 ++ more2)%list.
    fold (perform_all toLowerCase calls (perform toLowerCase c s)).
    now rewrite H2, H1, app_assoc.
Qed.

(** One call other than [deleteRoom] keeps the ids of the rooms and of
    the bookings in place, and may add some after them. *)
Lemma perform_keeps_ids (c : Call BookingDetails) (s : Store) :
  (forall roomId, c <> CallDeleteRoom roomId) ->
  (exists more, map Room.id (rooms_in (perform toLowerCase c s)) =
                (map Room.id (rooms_in s) ++ more)%list) /\
  (exists more, map Booking.id (bookings_in (perform toLowerCase c s)) =
                (map Booking.id (bookings_in s) ++ more)%list).
Proof.
  intros Hc.
  destruct c; simpl;
    try (split; exists []; now rewrite app_nil_r).
  - gateway. unfold rooms_in, bookings_in.
    destruct s as [us rs bs cu cf]; destruct us, rs, bs, cf; simpl;
      split; try (exists []; now rewrite app_nil_r); (eexists; reflexivity).
  - rewrite login_first_match.
    destruct (find (same_username toLowerCase username) (users_in s)) as [user|];
      [destruct (password_is user passwordInput)|];
      split; exists []; now rewrite app_nil_r.
  - gateway.
    destruct (find (same_username toLowerCase username) _);
      split; exists []; now rewrite app_nil_r.
  - split; [|exists []; now rewrite app_nil_r].
    gateway. unfold rooms_in at 1; simpl. fold (rooms_in s).
    rewrite map_app. eexists. reflexivity.
  - split; [|exists []; now rewrite app_nil_r].
    exists []. rewrite app_nil_r.
    gateway. unfold rooms_in at 1; simpl. fold (rooms_in s).
    apply (replace_by_id_ids Room.id).
  - exfalso. now apply (Hc roomId).
  - split; [exists []; now rewrite app_nil_r|].
    gateway. unfold bookings_in at 1; simpl. fold (bookings_in s).
    rewrite map_app. eexists. reflexivity.
  - split; [exists []; now rewrite app_nil_r|].
    exists []. rewrite app_nil_r.
    gateway. unfold bookings_in at 1; simpl. fold (bookings_in s).
    rewrite map_map. apply map_ext. intros b.
    now destruct (String.eqb (Booking.id b) bookingId).
  - split; [exists []; now rewrite app_nil_r|].
    exists []. rewrite app_nil_r.
    gateway. unfold bookings_in at 1; simpl. fold (bookings_in s).
    apply (replace_by_id_ids Booking.id).
Qed.

(** X14. Only [deleteRoom] removes rooms or bookings: after any sequence
    of calls none of which is a [deleteRoom], the ids of the rooms and of
    the bookings stored before are still there, in their places; rooms
    and bookings are only added after them. *)
Theorem only_deleteRoom_removes (calls : list (Call BookingDetails)) (s : Store)
  (Hnone : forall roomId, ~ In (CallDeleteRoom roomId) calls) :
  (exists more, map Room.id (rooms_in (perform_all toLowerCase calls s)) =
                (map Room.id (rooms_in s) ++ more)%list) /\
  (exists more, map Booking.id (bookings_in (perform_all toLowerCase calls s)) =
                (map Booking.id (bookings_in s) ++ more)%list).
Proof.
  revert s. induction calls as [|c calls IH]; intros s; simpl.
  - split; exists []; now rewrite app_nil_r.
  - fold (perform_all toLowerCase calls (perform toLowerCase c s)).
    assert (Hc : forall roomId, c <> CallDeleteRoom roomId).
    { intros roomId E. apply (Hnone roomId). now left. }
    assert (Hrest : forall roomId, ~ In (CallDeleteRoom roomId) calls).
    { intros roomId Hin. apply (Hnone roomId). now right. }
    destruct (IH Hrest (perform toLowerCase c s)) as [[r2 Hr2] [b2 Hb2]].
    destruct (perform_keeps_ids c s Hc) as [[r1 Hr1] [b1 Hb1]].
    split.
    + exists (r1 ++ r2)%list. now rewrite Hr2, Hr1, app_assoc.
    + exists (b1 ++ b2)%list. now rewrite Hb2, Hb1, app_assoc.
Qed.

(** *** Invariants *)

Lemma referential_integrity_ids (s : Store) :
  referential_integrity s <->
  (forall b, In b (bookings_in s) -> In (Booking.roomId b) (map Room.id (rooms_in s))).
Proof.
  unfold referential_integrity. split; intros H b Hb.
  - destruct (H b Hb) as (r & Hr & E). rewrite <- E. now apply in_map.
  - apply H in Hb. apply in_map_iff in Hb. destruct Hb as (r & E & Hr). now exists r.
Qed.

(** X15. The room operations keep every booking attached to a stored
    room: on a store where every booking is of a stored room, this is
    still so after [deleteRoom] (the cascade), [addRoom], [updateRoom]
    and [updateBookingStatus].  [createBooking] does not look at the
    rooms: it keeps the property exactly when a room of the booking's
    [roomId] is stored, and so does [updateBooking] when a room of the
    new booking's [roomId] is stored. *)
Theorem referential_integrity_kept (s : Store) (Hs : referential_integrity s) :
  (forall roomId, referential_integrity (snd (deleteRoom roomId s))) /\
  (forall now roomData, referential_integrity (snd (addRoom now roomData s))) /\
  (forall updatedRoom, referential_integrity (snd (updateRoom updatedRoom s))) /\
  (forall bookingId status,
     referential_integrity (snd (updateBookingStatus bookingId status s))) /\
  (forall now_id now_created booking,
     referential_integrity (snd (createBooking now_id now_created booking s)) <->
     exists r, In r (rooms_in s) /\ Room.id r = BookingData.roomId booking) /\
  (forall updatedBooking,
     (exists r, In r (rooms_in s) /\ Room.id r = Booking.roomId updatedBooking) ->
     referential_integrity (snd (updateBooking updatedBooking s))).
Proof.
  split; [|split; [|split; [|split; [|split]]]].
  - intros roomId b Hb.
    apply deleteRoom_bookings_In in Hb. destruct Hb as [Hb Hne].
    destruct (Hs b Hb) as (r & Hr & E).
    exists r. split; [|exact E].
    apply deleteRoom_rooms_In. split; [exact Hr|]. now rewrite E.
  - intros now roomData b Hb.
    destruct (Hs b Hb) as (r & Hr & E).
    exists r. split; [|exact E].
    gateway. unfold rooms_in at 1; simpl. fold (rooms_in s).
    apply in_or_app. now left.
  - intros updatedRoom. apply referential_integrity_ids. intros b Hb.
    pose proof (proj1 (referential_integrity_ids s) Hs) as Hids.
    revert Hb. gateway. unfold rooms_in at 1; simpl. fold (rooms_in s).
    rewrite (replace_by_id_ids Room.id). apply Hids.
  - intros bookingId status b Hb.
    revert Hb. gateway. unfold bookings_in at 1; simpl. fold (bookings_in s).
    rewrite in_map_iff. intros (b0 & E & Hb0).
    destruct (Hs b0 Hb0) as (r & Hr & Er).
    exists r. split; [exact Hr|]. rewrite Er, <- E.
    now destruct (String.eqb (Booking.id b0) bookingId).
  - intros now_id now_created booking. split.
    + intros H.
      destruct (H (booking_created now_id now_created booking)) as (r & Hr & E).
      * gateway. unfold bookings_in at 1; simpl.
        apply in_or_app. right. now left.
      * exists r. split; [exact Hr|exact E].
    + intros (r & Hr & E) b.
      gateway. unfold bookings_in at 1; simpl. fold (bookings_in s).
      rewrite in_app_iff. intros [Hb|[<-|[]]].
      * now apply Hs.
      * exists r. split; [exact Hr|exact E].
  - intros updatedBooking (r & Hr & E) b.
    gateway. unfold bookings_in at 1; simpl. fold (bookings_in s).
    rewrite in_map_iff. intros (b0 & Eb & Hb0).
    destruct (String.eqb (Booking.id b0) (Booking.id updatedBooking)).
    + subst b. exists r. split; [exact Hr|exact E].
    + subst b. now apply Hs.
Qed.

Lemma perform_all_initialized (calls : list (Call BookingDetails)) (s : Store) :
  initialized s -> initialized (perform_all toLowerCase calls s).
Proof.
  revert s. induction calls as [|c calls IH]; intros s Hs; simpl.
  - exact Hs.
  - apply IH. now apply perform_initialized.
Qed.

(** X16. No call removes a collection key or makes two usernames equal
    up to case: after any sequence of calls, a store that had its four
    collection keys still has them, and a store whose usernames were
    unique ignoring case still has unique usernames (the two seed
    usernames being different ignoring case). *)
Theorem gateway_keeps_keys_and_unique_usernames
  (calls : list (Call BookingDetails)) (s : Store) :
  (initialized s -> initialized (perform_all toLowerCase calls s)) /\
  (toLowerCase "admin" <> toLowerCase "user" ->
   unique_usernames toLowerCase s ->
   unique_usernames toLowerCase (perform_all toLowerCase calls s)).
Proof.
  split.
  - apply perform_all_initialized.
  - intros Hseed. now apply perform_all_unique_usernames.
Qed.

Lemma initializeStorage_noop (s : Store) :
  initialized s -> initializeStorage s = (tt, s).
Proof.
  intros (Hu & Hr & Hb & Hc).
  destruct s as [us rs bs cu cf]; simpl in *.
  destruct us, rs, bs, cf; try congruence. reflexivity.
Qed.

(** X17. Loading the module again resets nothing: once the four
    collection keys are present, after any sequence of calls
    [initializeStorage] leaves the store exactly as it finds it, so no
    stored user, room, booking or config is replaced by its seed. *)
Theorem reload_resets_nothing (calls : list (Call BookingDetails)) (s : Store)
  (Hs : initialized s) :
  initializeStorage (perform_all toLowerCase calls s) =
  (tt, perform_all toLowerCase calls s).
Proof.
  apply initializeStorage_noop. now apply perform_all_initialized.
Qed.

End Composition.

(* ================================================================= *)
(** ** The further properties at concrete stores *)

Lemma tidy_storage_referential_integrity : referential_integrity tidy_storage.
Proof.
  intros b [<-|[<-|[]]];
    (exists (Room.mk "room-1" "Salón Parroquial Principal" 50
               ["Proyector"; "Aire Acondicionado"; "Pizarrón"; "Sillas"]
               "https://picsum.photos/400/300?random=1");
     split; [left; reflexivity|reflexivity]).
Qed.

Lemma seeded_storage_initialized : initialized seeded_storage.
Proof. repeat split; discriminate. Qed.

(** Ana registers as [ana] and logs in as [ANA]. *)
Lemma register_then_login_witness :
  fst (register toLowerCase_ascii 1700000000000 "Ana" "ana" "pw" seeded_storage)
  = inl (User.mk "u-1700000000000" "ana" None USER "Ana") /\
  fst (login toLowerCase_ascii "ANA" "pw"
         (snd (register toLowerCase_ascii 1700000000000 "Ana" "ana" "pw" seeded_storage)))
  = Some (User.mk "u-1700000000000" "ana" None USER "Ana") /\
  fst (login toLowerCase_ascii "ana" "PW"
         (snd (register toLowerCase_ascii 1700000000000 "Ana" "ana" "pw" seeded_storage)))
  = None.
Proof.
  destruct (register_then_login toLowerCase_ascii 1700000000000 "Ana" "ana" "pw"
              seeded_storage (User.mk "u-1700000000000" "ana" None USER "Ana") eq_refl)
    as (_ & Hlogin & Hwrong).
  split; [reflexivity|]. split.
  - apply Hlogin. reflexivity.
  - apply Hwrong. discriminate.
Defined.

(** [ANA] after [ana] is rejected. *)
Lemma register_twice_is_rejected_witness :
  toLowerCase_ascii "ANA" = toLowerCase_ascii "ana" /\
  register toLowerCase_ascii 1700000000500 "Otra Ana" "ANA" "otra"
    (snd (register toLowerCase_ascii 1700000000000 "Ana" "ana" "pw" seeded_storage))
  = (inr "El nombre de usuario ya existe.",
     snd (register toLowerCase_ascii 1700000000000 "Ana" "ana" "pw" seeded_storage)).
Proof.
  split; [reflexivity|].
  exact (register_twice_is_rejected toLowerCase_ascii 1700000000000 1700000000500
           "Ana" "Otra Ana" "ana" "ANA" "pw" "otra" seeded_storage eq_refl).
Defined.

(** The seed user [u2] changes password and logs in with the new one. *)
Lemma updatePassword_then_login_witness :
  unique_usernames toLowerCase_ascii seeded_storage /\
  In (User.mk "u2" "user" (Some "password") USER "Juan Pérez") (users_in seeded_storage) /\
  fst (login toLowerCase_ascii "user" "nueva"
         (snd (updatePassword "u2" "nueva" seeded_storage)))
  = Some (User.mk "u2" "user" None USER "Juan Pérez") /\
  fst (login toLowerCase_ascii "user" "password"
         (snd (updatePassword "u2" "nueva" seeded_storage)))
  = None.
Proof.
  assert (Hin : In (User.mk "u2" "user" (Some "password") USER "Juan Pérez")
                   (users_in seeded_storage)).
  { simpl. right. left. reflexivity. }
  destruct (updatePassword_then_login toLowerCase_ascii "u2" "nueva" seeded_storage
              (User.mk "u2" "user" (Some "password") USER "Juan Pérez")
              seeded_storage_unique_usernames Hin eq_refl) as (Hnew & Hold).
  split; [exact seeded_storage_unique_usernames|]. split; [exact Hin|].
  split; [exact Hnew|]. apply Hold. discriminate.
Defined.

(** A booking made at 2000 is newer than the two stored ones. *)
Lemma createBooking_then_getBookings_witness :
  (forall b, In b (bookings_in tidy_storage) -> (Booking.createdAt b < 2000)%Z) /\
  map Booking.id
      (fst (getBookings
              (snd (createBooking 2000 2000 (BookingData.mk "room-1" "Luz, viernes 9-10")
                      tidy_storage))))
  = ["2000"; "1002"; "1001"].
Proof.
  assert (Hnewer : forall b, In b (bookings_in tidy_storage) ->
                             (Booking.createdAt b < 2000)%Z).
  { simpl. intros b [<-|[<-|[]]]; simpl; lia. }
  split; [exact Hnewer|].
  destruct (createBooking_then_getBookings 2000 2000
              (BookingData.mk "room-1" "Luz, viernes 9-10") tidy_storage)
    as (_ & _ & _ & _ & _ & _ & _ & Hfirst & _).
  rewrite (Hfirst Hnewer). reflexivity.
Defined.

(** Adding, booking and updating remove nothing. *)
Lemma only_deleteRoom_removes_witness :
  (forall roomId,
     ~ In (CallDeleteRoom roomId)
          [CallAddRoom 3000 (RoomData.mk "Sala" 8 [] "");
           CallCreateBooking 3001 3001 (BookingData.mk "room-1" "Luz");
           CallUpdateBookingStatus "1001" REJECTED]) /\
  exists more,
    map Booking.id
        (bookings_in
           (perform_all toLowerCase_ascii
              [CallAddRoom 3000 (RoomData.mk "Sala" 8 [] "");
               CallCreateBooking 3001 3001 (BookingData.mk "room-1" "Luz");
               CallUpdateBookingStatus "1001" REJECTED]
              booked_storage))
    = (["1001"; "1003"; "1002"] ++ more)%list.
Proof.
  assert (Hnone : forall roomId,
            ~ In (CallDeleteRoom roomId)
                 [CallAddRoom 3000 (RoomData.mk "Sala" 8 [] "");
                  CallCreateBooking 3001 3001 (BookingData.mk "room-1" "Luz");
                  CallUpdateBookingStatus (BookingDetails := string) "1001" REJECTED]).
  { intros roomId [H|[H|[H|[]]]]; discriminate. }
  split; [exact Hnone|].
  exact (proj2 (only_deleteRoom_removes toLowerCase_ascii _ booked_storage Hnone)).
Defined.

(** The bookings of [tidy_storage] are of the seed room; deleting it
    leaves none dangling. *)
Lemma referential_integrity_kept_witness :
  referential_integrity tidy_storage /\
  referential_integrity (snd (deleteRoom "room-1" tidy_storage)) /\
  referential_integrity
    (snd (createBooking 2000 2000 (BookingData.mk "room-1" "Luz") tidy_storage)).
Proof.
  destruct (referential_integrity_kept tidy_storage tidy_storage_referential_integrity)
    as (Hdelete & _ & _ & _ & Hcreate & _).
  split; [exact tidy_storage_referential_integrity|]. split.
  - apply Hdelete.
  - apply Hcreate.
    exists (Room.mk "room-1" "Salón Parroquial Principal" 50
              ["Proyector"; "Aire Acondicionado"; "Pizarrón"; "Sillas"]
              "https://picsum.photos/400/300?random=1").
    split; [left; reflexivity|reflexivity].
Defined.

(** Logging out and deleting the only room keep the keys and the
    usernames. *)
Lemma gateway_keeps_keys_and_unique_usernames_witness :
  initialized seeded_storage /\
  unique_usernames toLowerCase_ascii seeded_storage /\
  initialized
    (perform_all toLowerCase_ascii [CallLogout; CallDeleteRoom "room-1"] seeded_storage) /\
  unique_usernames toLowerCase_ascii
    (perform_all toLowerCase_ascii
       [CallRegister 1700000000000 "Ana" "ana" "pw"; CallInitializeStorage]
       seeded_storage).
Proof.
  split; [exact seeded_storage_initialized|].
  split; [exact seeded_storage_unique_usernames|]. split.
  - apply (proj1 (gateway_keeps_keys_and_unique_usernames toLowerCase_ascii
                    [CallLogout; CallDeleteRoom "room-1"] seeded_storage)).
    exact seeded_storage_initialized.
  - apply (proj2 (gateway_keeps_keys_and_unique_usernames toLowerCase_ascii
                    [CallRegister 1700000000000 "Ana" "ana" "pw"; CallInitializeStorage]
                    seeded_storage)).
    + discriminate.
    + exact seeded_storage_unique_usernames.
Defined.

(** After the only room is deleted, a reload does not bring it back. *)
Lemma reload_resets_nothing_witness :
  initialized seeded_storage /\
  rooms_in
    (snd (initializeStorage
            (perform_all toLowerCase_ascii [CallDeleteRoom "room-1"] seeded_storage)))
  = [].
Proof.
  split; [exact seeded_storage_initialized|].
  rewrite (reload_resets_nothing toLowerCase_ascii [CallDeleteRoom "room-1"]
             seeded_storage seeded_storage_initialized).
  reflexivity.
Defined.
